(** * neutron_lib.api.validators: schema / validator composition engine

    A shallow embedding of [neutron_lib/api/validators.py], read with the
    semantics of Python 3.  Python values are a first-order tree type; a
    function value is a name looked up in a table of callables.  A Python call
    either returns or raises.  [validate_dict] writes into the payload it is
    given: it returns the payload as it leaves it, and so does every validator,
    since [validate_dict] is a validator of the table.  The object bound to a
    key is written back as the callee left it; one object bound under two keys
    is not modelled. *)

From Stdlib Require Import ZArith List String Ascii Bool Lia.
From Stdlib Require Import Decimal DecimalString.
From stdpp Require Import gmap strings.
Import ListNotations.

Set Warnings "-register-all".
Local Open Scope string_scope.
Local Open Scope Z_scope.

(** ** Python values *)

Module Py.

(** The values a payload or a schema is made of.  A [dict] keeps its items in
    iteration order; keys are attribute names.  Floats are not among the
    values: what is stated of every value is stated of every value that holds
    no float. *)
Inductive pyval : Type :=
| PNone
| PBool (b : bool)
| PInt (z : Z)
| PStr (s : string)
| PList (l : list pyval)
| PDict (d : list (string * pyval))
| PFun (name : string).

Inductive exn : Type :=
| TypeError
| KeyError (key : string)
| IndexError
| AttributeError
| ValueError
| OSError
| InvalidInput (error_message : string).

(** The outcome of a call: a returned value or a raised exception. *)
Inductive exc (A : Type) : Type :=
| Ok (a : A)
| Raise (e : exn).
Arguments Ok {A} a.
Arguments Raise {A} e.

Definition bind {A B} (c : exc A) (k : A -> exc B) : exc B :=
  match c with
  | Ok a => k a
  | Raise e => Raise e
  end.

(** What a validator returns: [None], or a message. *)
Definition msg := option string.

(** [if msg:] *)
Definition msg_truthy (m : msg) : bool :=
  match m with
  | None => false
  | Some s => negb (String.eqb s "")
  end.

(** [if x:] *)
Definition truthy (v : pyval) : bool :=
  match v with
  | PNone => false
  | PBool b => b
  | PInt z => negb (z =? 0)
  | PStr s => negb (String.eqb s "")
  | PList l => match l with [] => false | _ => true end
  | PDict d => match d with [] => false | _ => true end
  | PFun _ => true
  end.

Definition Z_to_string (z : Z) : string := NilZero.string_of_int (Z.to_int z).

(** [', '.join(l)] on strings. *)
Definition join (sep : string) (l : list string) : string := String.concat sep l.

Fixpoint py_repr (v : pyval) : string :=
  match v with
  | PNone => "None"
  | PBool true => "True"
  | PBool false => "False"
  | PInt z => Z_to_string z
  | PStr s => "'" ++ s ++ "'"
  | PList l => "[" ++ join ", " (map py_repr l) ++ "]"
  | PDict d =>
      "{" ++ join ", " (map (fun kv => "'" ++ fst kv ++ "': " ++ py_repr (snd kv)) d) ++ "}"
  | PFun name => "<function " ++ name ++ ">"
  end.

(** ['%s' % v] *)
Definition py_str (v : pyval) : string :=
  match v with
  | PStr s => s
  | _ => py_repr v
  end.

(** [repr] of a set of strings, shown in first-occurrence order. *)
Definition set_repr (l : list string) : string :=
  match l with
  | [] => "set()"
  | _ => "{" ++ join ", " (map (fun s => py_repr (PStr s)) l) ++ "}"
  end.

(** *** dict operations *)

Definition dict := list (string * pyval).

(** [d.get(k)], as an option. *)
Fixpoint lookup (d : dict) (k : string) : option pyval :=
  match d with
  | [] => None
  | (k', v) :: d' => if String.eqb k' k then Some v else lookup d' k
  end.

(** [d.get(k)]: [None] when the key is missing. *)
Definition get (d : dict) (k : string) : pyval :=
  match lookup d k with
  | Some v => v
  | None => PNone
  end.

(** [k in d] *)
Definition contains (d : dict) (k : string) : bool :=
  match lookup d k with
  | Some _ => true
  | None => false
  end.

(** [d[k] = v]: an existing key keeps its place, a new one goes last. *)
Fixpoint setitem (d : dict) (k : string) (v : pyval) : dict :=
  match d with
  | [] => [(k, v)]
  | (k', v') :: d' =>
      if String.eqb k' k then (k', v) :: d' else (k', v') :: setitem d' k v
  end.

(** The object bound to an existing key as a callee left it. *)
Fixpoint writeback (d : dict) (k : string) (v : pyval) : dict :=
  match d with
  | [] => []
  | (k', v') :: d' =>
      if String.eqb k' k then (k', v) :: d' else (k', v') :: writeback d' k v
  end.

Definition keys (d : dict) : list string := map fst d.

(** [set(l)] of strings, duplicates removed. *)
Fixpoint str_set (l : list string) : list string :=
  match l with
  | [] => []
  | x :: l' =>
      if existsb (String.eqb x) l' then str_set l' else x :: str_set l'
  end.

Definition str_mem (x : string) (l : list string) : bool := existsb (String.eqb x) l.

(** [a.issubset(b)] *)
Definition issubset (a b : list string) : bool := forallb (fun x => str_mem x b) a.

(** [a == b] on sets *)
Definition set_eq (a b : list string) : bool := issubset a b && issubset b a.

(** No key occurs twice: what makes a list of items a [dict]. *)
Fixpoint unique (l : list string) : bool :=
  match l with
  | [] => true
  | x :: l' => negb (str_mem x l') && unique l'
  end.

Definition is_dict (v : pyval) : bool :=
  match v with
  | PDict _ => true
  | _ => false
  end.

(** *** int() *)

(** Whitespace as Python 3 has it on the code points below 256: the blanks
    TAB to CR, the separators FS to US, the space, NEL and the no-break space.
    [int()], [str.strip()] and the regular expression class of whitespace all
    go by it. *)
Definition is_space (c : ascii) : bool :=
  let n := nat_of_ascii c in
  ((9 <=? n) && (n <=? 13))%nat || ((28 <=? n) && (n <=? 32))%nat
  || (n =? 133)%nat || (n =? 160)%nat.

Definition digit_of (c : ascii) : option Z :=
  let n := Z.of_nat (nat_of_ascii c) in
  if (48 <=? n) && (n <=? 57) then Some (n - 48) else None.

Fixpoint lstrip (s : string) : string :=
  match s with
  | String c s' => if is_space c then lstrip s' else s
  | EmptyString => EmptyString
  end.

(** The digits, one underscore allowed between two of them, up to trailing
    blanks. *)
Fixpoint digits (acc : Z) (s : string) : option Z :=
  match s with
  | EmptyString => Some acc
  | String c s' =>
      match digit_of c with
      | Some d => digits (10 * acc + d) s'
      | None =>
          if Ascii.eqb c "_" then
            match s' with
            | String c' _ =>
                match digit_of c' with
                | Some _ => digits acc s'
                | None => None
                end
            | EmptyString => None
            end
          else if String.eqb (lstrip s) "" then Some acc else None
      end
  end.

Definition nonempty_digits (s : string) : option Z :=
  match s with
  | String c _ => match digit_of c with Some _ => digits 0 s | None => None end
  | EmptyString => None
  end.

(** [int(s)] on a string: blanks around an optional sign and decimal digits.
    The interpreter's limit on the number of digits
    ([sys.set_int_max_str_digits]) is taken as switched off. *)
Definition int_of_string (s : string) : option Z :=
  match lstrip s with
  | String "-" s' => option_map Z.opp (nonempty_digits s')
  | String "+" s' => nonempty_digits s'
  | s' => nonempty_digits s'
  end.

(** [int(v)] on the values of [pyval]: [None] stands for the [ValueError] or
    [TypeError] it raises, the two that its callers catch.  On a float, which
    [pyval] leaves out, [int] truncates, and on an infinite one it raises
    [OverflowError], which its callers do not catch. *)
Definition int (v : pyval) : option Z :=
  match v with
  | PInt z => Some z
  | PBool b => Some (if b then 1 else 0)
  | PStr s => int_of_string s
  | _ => None
  end.

End Py.

Import Py.

(** ** Validators and the registry *)

(** A validator is called with the data and one constraint parameter.  It
    returns the data object as it leaves it together with its outcome;
    [v_source] is what [inspect.getsource] gives for it: its text, or the
    [TypeError] (a [functools.partial], a callable object, a builtin) or
    [OSError] (no source at hand) that it raises. *)
Record validator : Type := Validator {
  v_source : exc string;
  v_call : pyval -> pyval -> pyval * exc msg
}.

(** A validator that only reads its argument. *)
Definition reads (f : pyval -> pyval -> exc msg) : pyval -> pyval -> pyval * exc msg :=
  fun data params => (data, f data params).

(** ** Key-set verifier *)

Definition _verify_dict_keys (expected_keys : list string) (target_dict : pyval)
    (strict : bool) : msg :=
  match target_dict with
  | PDict d =>
      let expected := str_set expected_keys in
      let provided := str_set (keys d) in
      let predicate := if strict then set_eq expected else issubset expected in
      if negb (predicate provided) then
        Some ("Validation of dictionary's keys failed. Expected keys: "
              ++ set_repr expected ++ " Provided keys: " ++ set_repr provided)
      else None
  | _ =>
      Some ("Invalid input. '" ++ py_str target_dict
            ++ "' must be a dictionary with keys: "
            ++ py_repr (PList (map PStr expected_keys)))
  end.

(** ** Strings *)

(** [len(data) > max_len] *)
Definition len_gt (s : string) (max_len : pyval) : exc bool :=
  match max_len with
  | PInt n => Ok (n <? Z.of_nat (String.length s))
  | PBool b => Ok ((if b then 1 else 0) <? Z.of_nat (String.length s))
  | _ => Raise TypeError
  end.

Definition validate_string (data max_len : pyval) : exc msg :=
  match data with
  | PStr s =>
      match max_len with
      | PNone => Ok None
      | _ =>
          bind (len_gt s max_len) (fun too_long =>
            if too_long then
              Ok (Some ("'" ++ s ++ "' exceeds maximum length of " ++ py_str max_len))
            else Ok None)
      end
  | _ => Ok (Some ("'" ++ py_str data ++ "' is not a valid string"))
  end.

Definition validate_string_or_none (data max_len : pyval) : exc msg :=
  match data with
  | PNone => Ok None
  | _ => validate_string data max_len
  end.

(** ** List of unique items *)

(** Lists and dicts have no hash. *)
Definition hashable (v : pyval) : bool :=
  match v with
  | PList _ | PDict _ => false
  | _ => true
  end.

Definition as_number (v : pyval) : option Z :=
  match v with
  | PInt z => Some z
  | PBool b => Some (if b then 1 else 0)
  | _ => None
  end.

(** [a == b] on hashable values: [True == 1] and [False == 0]. *)
Definition atom_eq (a b : pyval) : bool :=
  match a, b with
  | PNone, PNone => true
  | PStr s, PStr t => String.eqb s t
  | PFun f, PFun g => String.eqb f g
  | _, _ =>
      match as_number a, as_number b with
      | Some x, Some y => x =? y
      | _, _ => false
      end
  end.

(** The elements of [set(l)], for hashable elements. *)
Fixpoint distinct (l : list pyval) : list pyval :=
  match l with
  | [] => []
  | x :: l' => if existsb (atom_eq x) l' then distinct l' else x :: distinct l'
  end.

(** [len(set(data))] *)
Definition set_len (l : list pyval) : exc nat :=
  if forallb hashable l then Ok (length (distinct l)) else Raise TypeError.

(** [sep.join(data)]: every item has to be a string. *)
Fixpoint strings_of (l : list pyval) : option (list string) :=
  match l with
  | [] => Some []
  | PStr s :: l' => option_map (cons s) (strings_of l')
  | _ :: _ => None
  end.

Definition join_values (sep : string) (l : list pyval) : exc string :=
  match strings_of l with
  | Some ss => Ok (join sep ss)
  | None => Raise TypeError
  end.

(** [for item in data: msg = item_validator(item); if msg: return msg] *)
Fixpoint first_failure (item_validator : pyval -> exc msg) (l : list pyval) : exc msg :=
  match l with
  | [] => Ok None
  | item :: l' =>
      match item_validator item with
      | Ok m => if msg_truthy m then Ok m else first_failure item_validator l'
      | Raise e => Raise e
      end
  end.

Definition _validate_list_of_items (item_validator : pyval -> exc msg) (data : pyval)
    : exc msg :=
  match data with
  | PList l =>
      bind (set_len l) (fun n =>
        if negb (Nat.eqb n (length l)) then
          bind (join_values ", " l) (fun s =>
            Ok (Some ("Duplicate items in the list: '" ++ s ++ "'")))
        else first_failure item_validator l)
  | _ => Ok (Some ("'" ++ py_str data ++ "' is not a list"))
  end.

Definition validate_list_of_unique_strings (data max_len : pyval) : exc msg :=
  _validate_list_of_items (fun item => validate_string item max_len) data.

(** ** Range *)

(** [valid_values[i]] *)
Definition subscript (v : pyval) (i : nat) : exc pyval :=
  match v with
  | PList l => match nth_error l i with Some x => Ok x | None => Raise IndexError end
  | PStr s =>
      match String.get i s with
      | Some c => Ok (PStr (String c EmptyString))
      | None => Raise IndexError
      end
  | PDict _ => Raise (KeyError (Z_to_string (Z.of_nat i)))
  | _ => Raise TypeError
  end.

(** A bound of the range: [UNLIMITED] is [None]; a bound that is no number
    cannot be ordered with an [int]. *)
Definition UNLIMITED : pyval := PNone.

Definition limit (bound : pyval) : exc (option Z) :=
  match bound with
  | PNone => Ok None
  | _ =>
      match as_number bound with
      | Some n => Ok (Some n)
      | None => Raise TypeError
      end
  end.

Definition too_small (data limit : Z) : string :=
  "'" ++ Z_to_string data ++ "' is too small - must be at least '"
  ++ Z_to_string limit ++ "'".

Definition too_large (data limit : Z) : string :=
  "'" ++ Z_to_string data ++ "' is too large - must be no larger than '"
  ++ Z_to_string limit ++ "'".

Definition validate_range (data valid_values : pyval) : exc msg :=
  bind (subscript valid_values 0) (fun min_value =>
  bind (subscript valid_values 1) (fun max_value =>
    match int data with
    | None => Ok (Some ("'" ++ py_str data ++ "' is not an integer"))
    | Some data =>
        let check_max :=
          bind (limit max_value) (fun hi =>
            match hi with
            | Some n => if n <? data then Ok (Some (too_large data n)) else Ok None
            | None => Ok None
            end) in
        bind (limit min_value) (fun lo =>
          match lo with
          | Some n => if data <? n then Ok (Some (too_small data n)) else check_max
          | None => check_max
          end)
    end)).

Definition validate_non_negative (data valid_values : pyval) : exc msg :=
  match int data with
  | None => Ok (Some ("'" ++ py_str data ++ "' is not an integer"))
  | Some data =>
      if data <? 0 then Ok (Some ("'" ++ Z_to_string data ++ "' should be non-negative"))
      else Ok None
  end.

(** ** Port range *)

(** [s.split(':')] *)
Fixpoint split (sep : ascii) (s : string) : list string :=
  match s with
  | EmptyString => [EmptyString]
  | String c s' =>
      if Ascii.eqb c sep then EmptyString :: split sep s'
      else match split sep s' with
           | p :: ps => String c p :: ps
           | [] => [String c EmptyString]
           end
  end.

(** [a > b] on strings: code point by code point. *)
Definition str_gt (a b : string) : bool :=
  match String.compare a b with
  | Gt => true
  | _ => false
  end.

(** [netutils.is_valid_port] as oslo.utils documents it: the text is an
    integer from 0 up to and including 65535. *)
Definition is_valid_port (p : string) : bool :=
  match int_of_string p with
  | Some n => (0 <=? n) && (n <=? 65535)
  | None => false
  end.

Section PortRange.

(** The port test is the library's; the validator is stated over any. *)
Variable valid_port : string -> bool.

Fixpoint check_ports (ports : list string) : msg :=
  match ports with
  | [] => None
  | p :: ports' =>
      if (String.length p =? 0)%nat then
        Some "Port range must be two integers separated by a colon."
      else if negb (valid_port p) then Some ("Invalid port: " ++ p ++ ".")
      else check_ports ports'
  end.

Definition validate_port_range_or_none (data valid_values : pyval) : exc msg :=
  match data with
  | PNone => Ok None
  | _ =>
      bind (validate_string_or_none data PNone) (fun not_string =>
        if msg_truthy not_string then Ok (Some "Port range must be a string.")
        else
          match data with
          | PStr s =>
              let ports := split ":" s in
              if (2 <? length ports)%nat then
                Ok (Some "Port range must be two integers separated by a colon.")
              else
                match check_ports ports with
                | Some m => Ok (Some m)
                | None =>
                    match ports with
                    | p0 :: p1 :: _ =>
                        if str_gt p0 p1 then
                          Ok (Some ("First port in a port range must be lower "
                                    ++ "than the second port."))
                        else Ok None
                    | _ => Ok None
                    end
                end
          | _ => Raise AttributeError
          end)
  end.

End PortRange.

(** ** Dict schema validator *)

(** The first item of a KeySpec whose name starts with [type:]. *)
Fixpoint find_type (key_validator : dict) : option (string * pyval) :=
  match key_validator with
  | [] => None
  | (k, v) :: rest => if String.prefix "type:" k then Some (k, v) else find_type rest
  end.

Definition no_validator (k : string) : string := "Validator '" ++ k ++ "' does not exist.".

Section Engine.

(** The functions that function values name (conversion functions). *)
Variable callables : string -> pyval -> exc pyval.

(** The module's [validators] table. *)
Variable validators : gmap string validator.

(** [f(x)] *)
Definition call (f x : pyval) : exc pyval :=
  match f with
  | PFun name => callables name x
  | _ => Raise TypeError
  end.

(** The conversion step: [data[key] = conv_func(data.get(key))]. *)
Definition convert (key : string) (key_validator data : dict) : exc dict :=
  let conv_func := get key_validator "convert_to" in
  if truthy conv_func then
    bind (call conv_func (get data key)) (fun v => Ok (setitem data key v))
  else Ok data.

Definition _validate_dict_item (key : string) (key_validator : pyval) (data : dict)
    : dict * exc msg :=
  match key_validator with
  | PDict kv =>
      match convert key kv data with
      | Raise e => (data, Raise e)
      | Ok data =>
          match find_type kv with
          | None => (data, Ok None)
          | Some (k, val_params) =>
              match validators !! k with
              | None => (data, Ok (Some (no_validator k)))
              | Some val_func =>
                  let (v, r) := v_call val_func (get data key) val_params in
                  (writeback data key v, r)
              end
          end
      end
  | _ => (data, Raise AttributeError)
  end.

(** [[key for key, spec in key_specs.items() if spec.get('required')]] *)
Fixpoint required_keys (key_specs : dict) : exc (list string) :=
  match key_specs with
  | [] => Ok []
  | (key, PDict spec) :: rest =>
      bind (required_keys rest) (fun ks =>
        Ok (if truthy (get spec "required") then key :: ks else ks))
  | _ :: _ => Raise AttributeError
  end.

(** The loop over the declared keys that are present. *)
Fixpoint validate_items (items : dict) (data : dict) : dict * exc msg :=
  match items with
  | [] => (data, Ok None)
  | (key, key_validator) :: rest =>
      let (data, r) := _validate_dict_item key key_validator data in
      match r with
      | Ok m => if msg_truthy m then (data, Ok m) else validate_items rest data
      | Raise e => (data, Raise e)
      end
  end.

Definition unexpected_keys (d key_specs : dict) : list string :=
  List.filter (fun key => negb (contains key_specs key)) (keys d).

Definition present_items (key_specs d : dict) : dict :=
  List.filter (fun kv => contains d (fst kv)) key_specs.

Definition validate_dict (data key_specs : pyval) : pyval * exc msg :=
  match data with
  | PDict d =>
      if negb (truthy key_specs) then (data, Ok None)
      else
        match key_specs with
        | PDict specs =>
            match required_keys specs with
            | Raise e => (data, Raise e)
            | Ok required =>
                let missing :=
                  match required with
                  | [] => None
                  | _ => _verify_dict_keys required data false
                  end in
                if msg_truthy missing then (data, Ok missing)
                else
                  match unexpected_keys d specs with
                  | [] =>
                      let (d, r) := validate_items (present_items specs d) d in
                      (PDict d, r)
                  | unexpected =>
                      (data, Ok (Some ("Unexpected keys supplied: "
                                       ++ join ", " unexpected)))
                  end
            end
        | _ => (data, Raise AttributeError)
        end
  | _ => (data, Ok (Some ("'" ++ py_str data ++ "' is not a dictionary")))
  end.

Definition validate_dict_or_none (data key_specs : pyval) : pyval * exc msg :=
  match data with
  | PNone => (data, Ok None)
  | _ => validate_dict data key_specs
  end.

Definition validate_dict_or_empty (data key_specs : pyval) : pyval * exc msg :=
  match data with
  | PDict [] => (data, Ok None)
  | _ => validate_dict data key_specs
  end.

Definition validate_dict_or_nodata (data key_specs : pyval) : pyval * exc msg :=
  if truthy data then validate_dict data key_specs else (data, Ok None).

End Engine.

(** ** Registry operations *)

Definition _to_validation_type (validation_type : string) : string :=
  if String.prefix "type:" validation_type then validation_type
  else "type:" ++ validation_type.

Definition get_validator (validators : gmap string validator) (validation_type : string)
    (default : option validator) : option validator :=
  match validators !! _to_validation_type validation_type with
  | Some v => Some v
  | None => default
  end.

Definition already_defined (validation_type : string) : string :=
  "Validator type " ++ validation_type ++ " is already defined".

(** The table after the call, and whether the call returned or raised.  The
    source of the given validator is asked for first, then the source of the
    bound one; what [inspect.getsource] raises leaves the table as it is. *)
Definition add_validator (validation_type : string) (v : validator)
    (validators : gmap string validator) : gmap string validator * exc unit :=
  let key := _to_validation_type validation_type in
  match validators !! key with
  | Some bound =>
      match v_source v with
      | Raise e => (validators, Raise e)
      | Ok source =>
          match v_source bound with
          | Raise e => (validators, Raise e)
          | Ok bound_source =>
              if negb (String.eqb source bound_source) then
                (validators, Raise (KeyError (already_defined validation_type)))
              else (validators, Ok tt)
          end
      end
  | None => (<[key := v]> validators, Ok tt)
  end.

(** ** Whitespace *)

Fixpoint has_space (s : string) : bool :=
  match s with
  | EmptyString => false
  | String c s' => is_space c || has_space s'
  end.

(** Returns the data itself, or raises. *)
Definition validate_no_whitespace (data : pyval) : exc pyval :=
  match data with
  | PStr s =>
      if has_space s then Raise (InvalidInput ("'" ++ s ++ "' contains whitespace"))
      else Ok data
  | _ => Raise TypeError
  end.

(** ** The built-in table *)

(** Python's [int] and [str] as conversion functions. *)
Definition builtins (name : string) (x : pyval) : exc pyval :=
  if String.eqb name "int" then
    match int x with
    | Some z => Ok (PInt z)
    | None => match x with PStr _ => Raise ValueError | _ => Raise TypeError end
    end
  else if String.eqb name "str" then Ok (PStr (py_str x))
  else Raise TypeError.

(** The validators of the table that do not call back into it. *)
Definition leaf_validators : gmap string validator :=
  list_to_map
    [ ("type:non_negative",
       Validator (Ok "def validate_non_negative(data, valid_values=None)")
                 (reads validate_non_negative));
      ("type:port_range",
       Validator (Ok "def validate_port_range_or_none(data, valid_values=None)")
                 (reads (validate_port_range_or_none is_valid_port)));
      ("type:range",
       Validator (Ok "def validate_range(data, valid_values=None)") (reads validate_range));
      ("type:string",
       Validator (Ok "def validate_string(data, max_len=None)") (reads validate_string));
      ("type:string_or_none",
       Validator (Ok "def validate_string_or_none(data, max_len=None)")
                 (reads validate_string_or_none));
      ("type:list_of_unique_strings",
       Validator (Ok "def validate_list_of_unique_strings(data, max_len=None)")
                 (reads validate_list_of_unique_strings)) ].

(** The table refers to [validate_dict], which looks validators up in the
    table: [validators_at n] is the table in which dict validators can be
    entered [n] levels deep. *)
Fixpoint validators_at (depth : nat) : gmap string validator :=
  match depth with
  | O => leaf_validators
  | S n =>
      let inner := validators_at n in
      <["type:dict" :=
          Validator (Ok "def validate_dict(data, key_specs=None)")
                    (validate_dict builtins inner)]>
      (<["type:dict_or_none" :=
          Validator (Ok "def validate_dict_or_none(data, key_specs=None)")
                    (validate_dict_or_none builtins inner)]>
      (<["type:dict_or_empty" :=
          Validator (Ok "def validate_dict_or_empty(data, key_specs=None)")
                    (validate_dict_or_empty builtins inner)]>
      (<["type:dict_or_nodata" :=
          Validator (Ok "def validate_dict_or_nodata(data, key_specs=None)")
                    (validate_dict_or_nodata builtins inner)]>
       leaf_validators)))
  end.

(** * The other validators of the module *)

(** ** Equality and membership *)

(** [a == b]: numbers by value ([True == 1]), lists item by item, dicts as
    sets of items. *)
Fixpoint py_eq (a b : pyval) : bool :=
  match a, b with
  | PNone, PNone => true
  | PStr s, PStr t => String.eqb s t
  | PFun f, PFun g => String.eqb f g
  | PList l, PList m =>
      (fix items (l m : list pyval) : bool :=
         match l, m with
         | [], [] => true
         | x :: l', y :: m' => py_eq x y && items l' m'
         | _, _ => false
         end) l m
  | PDict d, PDict e =>
      Nat.eqb (length d) (length e)
      && (fix items (d : list (string * pyval)) : bool :=
            match d with
            | [] => true
            | kv :: d' =>
                match lookup e (fst kv) with
                | Some w => py_eq (snd kv) w
                | None => false
                end && items d'
            end) d
  | _, _ =>
      match as_number a, as_number b with
      | Some x, Some y => x =? y
      | _, _ => false
      end
  end.

(** [x in l] on a list: some item equals [x]. *)
Definition list_contains (l : list pyval) (x : pyval) : bool :=
  existsb (fun item => py_eq item x) l.

(** [needle in hay] on strings. *)
Fixpoint str_contains (needle hay : string) : bool :=
  String.prefix needle hay
  || match hay with
     | EmptyString => false
     | String _ hay' => str_contains needle hay'
     end.

(** [data in valid_values]; [None] when [valid_values] has no
    [__contains__].  A dict hashes the data, a string wants a string. *)
Definition member (data valid_values : pyval) : option (exc bool) :=
  match valid_values with
  | PList l => Some (Ok (list_contains l data))
  | PDict d =>
      Some (if hashable data then
              Ok (match data with PStr k => contains d k | _ => false end)
            else Raise TypeError)
  | PStr s =>
      Some (match data with
            | PStr t => Ok (str_contains t s)
            | _ => Raise TypeError
            end)
  | _ => None
  end.

Definition validate_values (data valid_values valid_values_display : pyval) : exc msg :=
  match valid_values with
  | PNone => Ok None
  | _ =>
      match member data valid_values with
      | Some (Ok true) => Ok None
      | Some (Ok false) =>
          let display :=
            if truthy valid_values_display then valid_values_display
            else PStr "valid_values" in
          Ok (Some (py_str data ++ " is not in " ++ py_str display))
      | Some (Raise _) => Raise TypeError
      | None => Raise TypeError
      end
  end.

(** ** Strings that are not blank *)

(** [str.isspace] on the code points below 256. *)
Definition str_isspace (c : ascii) : bool :=
  let n := nat_of_ascii c in
  ((9 <=? n) && (n <=? 13))%nat || ((28 <=? n) && (n <=? 32))%nat
  || (n =? 133)%nat || (n =? 160)%nat.

Fixpoint str_lstrip (s : string) : string :=
  match s with
  | String c s' => if str_isspace c then str_lstrip s' else s
  | EmptyString => EmptyString
  end.

Fixpoint str_rstrip (s : string) : string :=
  match s with
  | EmptyString => EmptyString
  | String c s' =>
      match str_rstrip s' with
      | EmptyString => if str_isspace c then EmptyString else String c EmptyString
      | r => String c r
      end
  end.

(** [s.strip()] *)
Definition strip (s : string) : string := str_rstrip (str_lstrip s).

Definition validate_not_empty_string (data max_len : pyval) : exc msg :=
  bind (validate_string data max_len) (fun m =>
    if msg_truthy m then Ok m
    else
      match data with
      | PStr s =>
          if String.eqb (strip s) "" then
            Ok (Some ("'" ++ s ++ "' Blank strings are not permitted"))
          else Ok None
      | _ => Raise AttributeError
      end).

Definition validate_not_empty_string_or_none (data max_len : pyval) : exc msg :=
  match data with
  | PNone => Ok None
  | _ => validate_not_empty_string data max_len
  end.

(** ** Addresses *)

(** [c in s] *)
Fixpoint has_char (c : ascii) (s : string) : bool :=
  match s with
  | EmptyString => false
  | String a s' => Ascii.eqb a c || has_char c s'
  end.

(** [s.count(c)] *)
Fixpoint count_char (c : ascii) (s : string) : nat :=
  match s with
  | EmptyString => O
  | String a s' => ((if Ascii.eqb a c then 1 else 0) + count_char c s')%nat
  end.

(** What the code reads of a parsed address: its version and its text. *)
Record address : Type := Address { version : Z; text : string }.

(** What the code reads of a parsed network: its version, its text and the
    text of its [cidr]. *)
Record network : Type := Network { net_version : Z; net_text : string; net_cidr : string }.

Section Addresses.

(** [netaddr.IPAddress(s, flags=ZEROFILL)] and [netaddr.IPNetwork(s)]:
    [None] when the library raises. *)
Variable IPAddress : string -> option address.
Variable IPNetwork : string -> option network.

(** [uuidutils.is_uuid_like] *)
Variable is_uuid_like : pyval -> bool.

Definition invalid_ip (data : pyval) : string :=
  "'" ++ py_str data ++ "' is not a valid IP address".

(** Everything the [try] block raises becomes the message. *)
Definition validate_ip_address (data valid_values : pyval) : msg :=
  match validate_no_whitespace data with
  | Ok (PStr s) =>
      match IPAddress s with
      | Some ip =>
          if negb (has_char ":" s) && negb (count_char "." s =? 3)%nat then
            Some (invalid_ip data)
          else if (version ip =? 4) && negb (String.eqb (text ip) s) then
            Some ("'" ++ s ++ "' is not an accepted IP address, '"
                  ++ text ip ++ "' is recommended")
          else None
      | None => Some (invalid_ip data)
      end
  | _ => Some (invalid_ip data)
  end.

Definition validate_ip_address_or_none (data valid_values : pyval) : msg :=
  match data with
  | PNone => None
  | _ => validate_ip_address data valid_values
  end.

Definition validate_subnet (data valid_values : pyval) : msg :=
  match validate_no_whitespace data with
  | Ok (PStr s) =>
      match IPNetwork s with
      | Some net =>
          if negb (has_char "/" s)
             || ((net_version net =? 4) && negb (String.eqb (net_text net) s)) then
            Some ("'" ++ s ++ "' isn't a recognized IP subnet cidr, '"
                  ++ net_cidr net ++ "' is recommended")
          else None
      | None => Some ("'" ++ py_str data ++ "' is not a valid IP subnet")
      end
  | _ => Some ("'" ++ py_str data ++ "' is not a valid IP subnet")
  end.

Definition validate_subnet_or_none (data valid_values : pyval) : msg :=
  match data with
  | PNone => None
  | _ => validate_subnet data valid_values
  end.

(** The two messages are tested with [is not None]. *)
Definition validate_ip_or_subnet_or_none (data valid_values : pyval) : msg :=
  match validate_ip_address_or_none data PNone, validate_subnet_or_none data PNone with
  | Some _, Some _ =>
      Some ("'" ++ py_str data ++ "' is neither a valid IP address, nor "
            ++ "is it a valid IP subnet")
  | _, _ => None
  end.

Definition validate_uuid (data valid_values : pyval) : msg :=
  if negb (is_uuid_like data) then Some ("'" ++ py_str data ++ "' is not a valid UUID")
  else None.

Definition validate_uuid_or_none (data valid_values : pyval) : msg :=
  match data with
  | PNone => None
  | _ => validate_uuid data PNone
  end.

Definition validate_uuid_list (data valid_values : pyval) : exc msg :=
  _validate_list_of_items (fun item => Ok (validate_uuid item valid_values)) data.

Definition validate_subnet_list (data valid_values : pyval) : exc msg :=
  _validate_list_of_items (fun item => Ok (validate_subnet item valid_values)) data.

(** ** Lists of structured items *)

(** [d[k]] *)
Definition getitem (d : pyval) (k : string) : exc pyval :=
  match d with
  | PDict items =>
      match lookup items k with
      | Some v => Ok v
      | None => Raise (KeyError k)
      end
  | _ => Raise TypeError
  end.

(** [for k in expected_keys: msg = validate_ip_address(ip_pool[k]) ...] *)
Fixpoint pool_addresses (ip_pool : pyval) (expected_keys : list string) : exc msg :=
  match expected_keys with
  | [] => Ok None
  | k :: rest =>
      bind (getitem ip_pool k) (fun v =>
        let m := validate_ip_address v PNone in
        if msg_truthy m then Ok m else pool_addresses ip_pool rest)
  end.

Fixpoint ip_pools_loop (expected_keys : list string) (data : list pyval) : exc msg :=
  match data with
  | [] => Ok None
  | ip_pool :: rest =>
      let m := _verify_dict_keys expected_keys ip_pool true in
      if msg_truthy m then Ok m
      else
        bind (pool_addresses ip_pool expected_keys) (fun m =>
          if msg_truthy m then Ok m else ip_pools_loop expected_keys rest)
  end.

Definition validate_ip_pools (data valid_values : pyval) : exc msg :=
  match data with
  | PList l => ip_pools_loop ["start"; "end"] l
  | _ => Ok (Some ("Invalid data format for IP pool: '" ++ py_str data ++ "'"))
  end.

(** The loop of [validate_fixed_ips], with the list [ips] of the addresses
    seen so far. *)
Fixpoint fixed_ips_loop (ips : list pyval) (data : list pyval) : exc msg :=
  match data with
  | [] => Ok None
  | PDict d :: rest =>
      let address_step :=
        if contains d "ip_address" then
          let fixed_ip_address := get d "ip_address" in
          let m :=
            if list_contains ips fixed_ip_address then
              Some ("Duplicate IP address '" ++ py_str fixed_ip_address ++ "'")
            else validate_ip_address fixed_ip_address PNone in
          if msg_truthy m then inl m else inr (ips ++ [fixed_ip_address])%list
        else inr ips in
      match address_step with
      | inl m => Ok m
      | inr ips =>
          let m := if contains d "subnet_id" then validate_uuid (get d "subnet_id") PNone
                   else None in
          if msg_truthy m then Ok m else fixed_ips_loop ips rest
      end
  | fixed_ip :: _ =>
      Ok (Some ("Invalid data format for fixed IP: '" ++ py_str fixed_ip ++ "'"))
  end.

Definition validate_fixed_ips (data valid_values : pyval) : exc msg :=
  match data with
  | PList l => fixed_ips_loop [] l
  | _ => Ok (Some ("Invalid data format for fixed IP: '" ++ py_str data ++ "'"))
  end.

(** [for host in data], when [data] has [__iter__]: the items of a list, the
    keys of a dict, the characters of a string. *)
Definition iterate (data : pyval) : option (list pyval) :=
  match data with
  | PList l => Some l
  | PDict d => Some (map PStr (keys d))
  | PStr s => Some (map (fun c => PStr (String c EmptyString)) (list_ascii_of_string s))
  | _ => None
  end.

Fixpoint nameservers_loop (hosts : list pyval) (data : list pyval) : msg :=
  match data with
  | [] => None
  | host :: rest =>
      match validate_ip_address host PNone with
      | Some m =>
          if msg_truthy (Some m) then
            Some ("'" ++ py_str host ++ "' is not a valid nameserver. " ++ m)
          else if list_contains hosts host then
            Some ("Duplicate nameserver '" ++ py_str host ++ "'")
          else nameservers_loop (hosts ++ [host])%list rest
      | None =>
          if list_contains hosts host then
            Some ("Duplicate nameserver '" ++ py_str host ++ "'")
          else nameservers_loop (hosts ++ [host])%list rest
      end
  end.

Definition validate_nameservers (data valid_values : pyval) : msg :=
  match iterate data with
  | Some l => nameservers_loop [] l
  | None => Some ("Invalid data format for nameserver: '" ++ py_str data ++ "'")
  end.

Fixpoint hostroutes_loop (hostroutes : list pyval) (data : list pyval) : exc msg :=
  match data with
  | [] => Ok None
  | hostroute :: rest =>
      let m := _verify_dict_keys ["destination"; "nexthop"] hostroute true in
      if msg_truthy m then Ok m
      else
        bind (getitem hostroute "destination") (fun destination =>
          let m := validate_subnet destination PNone in
          if msg_truthy m then Ok m
          else
            bind (getitem hostroute "nexthop") (fun nexthop =>
              let m := validate_ip_address nexthop PNone in
              if msg_truthy m then Ok m
              else if list_contains hostroutes hostroute then
                Ok (Some ("Duplicate hostroute '" ++ py_str hostroute ++ "'"))
              else hostroutes_loop (hostroutes ++ [hostroute])%list rest))
  end.

Definition validate_hostroutes (data valid_values : pyval) : exc msg :=
  match data with
  | PList l => hostroutes_loop [] l
  | _ => Ok (Some ("Invalid data format for hostroute: '" ++ py_str data ++ "'"))
  end.

End Addresses.

(** ** Subports *)

(** [x in s] on a set: [x] is hashed. *)
Definition set_contains (s : list pyval) (x : pyval) : exc bool :=
  if hashable x then Ok (existsb (fun item => atom_eq item x) s) else Raise TypeError.

(** [s.add(x)] *)
Definition set_add (s : list pyval) (x : pyval) : exc (list pyval) :=
  if hashable x then
    Ok (if existsb (fun item => atom_eq item x) s then s else (s ++ [x])%list)
  else Raise TypeError.

(** The [defaultdict(set)] of [validate_subports]: the sets by key, in
    insertion order. *)
Definition set_table := list (pyval * list pyval).

Fixpoint table_find (t : set_table) (k : pyval) : option (list pyval) :=
  match t with
  | [] => None
  | (k', s) :: t' => if atom_eq k' k then Some s else table_find t' k
  end.

(** [segmentations.get(k, [])]: the key is hashed. *)
Definition table_get (t : set_table) (k : pyval) : exc (option (list pyval)) :=
  if hashable k then Ok (table_find t k) else Raise TypeError.

Fixpoint table_set (t : set_table) (k : pyval) (s : list pyval) : set_table :=
  match t with
  | [] => [(k, s)]
  | (k', s') :: t' => if atom_eq k' k then (k', s) :: t' else (k', s') :: table_set t' k s
  end.

(** [segmentations[k].add(x)]: a missing key gets an empty set first. *)
Definition table_add (t : set_table) (k x : pyval) : exc set_table :=
  if hashable k then
    let s := match table_find t k with Some s => s | None => [] end in
    bind (set_add s x) (fun s' => Ok (table_set t k s'))
  else Raise TypeError.

Section Subports.

Variable is_uuid_like : pyval -> bool.

Fixpoint subports_loop (subport_ids : list pyval) (segmentations : set_table)
    (data : list pyval) : exc msg :=
  match data with
  | [] => Ok None
  | PDict subport :: rest =>
      if negb (contains subport "port_id") then
        Ok (Some "A valid port UUID must be specified")
      else
        let port_id := get subport "port_id" in
        if msg_truthy (validate_uuid is_uuid_like port_id PNone) then
          Ok (Some ("Invalid UUID for subport: '" ++ py_str port_id ++ "'"))
        else
          bind (set_contains subport_ids port_id) (fun seen =>
            if seen then
              Ok (Some ("Non unique UUID for subport: '" ++ py_str port_id ++ "'"))
            else
              bind (set_add subport_ids port_id) (fun subport_ids =>
                let segmentation_id := get subport "segmentation_id" in
                let segmentation_type := get subport "segmentation_type" in
                if (negb (truthy segmentation_id) || negb (truthy segmentation_type))
                   && (1 <? length subport)%nat then
                  Ok (Some ("Invalid subport details '" ++ py_str (PDict subport)
                            ++ "': missing segmentation information. Must specify "
                            ++ "both segmentation_id and segmentation_type"))
                else
                  bind (table_get segmentations segmentation_type) (fun ids =>
                    bind (match ids with
                          | Some s => set_contains s segmentation_id
                          | None => Ok false
                          end) (fun taken =>
                      if taken then
                        Ok (Some ("Segmentation ID '" ++ py_str segmentation_id
                                  ++ "' for '" ++ py_str port_id ++ "' is not unique"))
                      else if truthy segmentation_id then
                        bind (table_add segmentations segmentation_type segmentation_id)
                          (fun segmentations =>
                             subports_loop subport_ids segmentations rest)
                      else subports_loop subport_ids segmentations rest))))
  | subport :: _ =>
      Ok (Some ("Invalid data format for subport: '" ++ py_str subport
                ++ "' is not a dict"))
  end.

Definition validate_subports (data valid_values : pyval) : exc msg :=
  match data with
  | PList l => subports_loop [] [] l
  | _ =>
      Ok (Some ("Invalid data format for subports: '" ++ py_str data
                ++ "' is not a list"))
  end.

End Subports.

(** * Specification *)

(** ** Constraints of the range check *)

(** Whether [valid_values[0]] and [valid_values[1]] both evaluate. *)
Definition indexable_0_1 (valid_values : pyval) : bool :=
  match subscript valid_values 0, subscript valid_values 1 with
  | Ok _, Ok _ => true
  | _, _ => false
  end.

(** What indexing such a constraint raises. *)
Definition index_fault (valid_values : pyval) : exn :=
  match valid_values with
  | PList _ | PStr _ => IndexError
  | PDict d => KeyError "0"
  | _ => TypeError
  end.

(** ** Ports *)

(** The text holds no colon. *)
Definition no_colon (s : string) : Prop := split ":" s = [s].

(** ** Repeated items *)

(** Some two items of the list are equal. *)
Fixpoint has_repeat (l : list pyval) : bool :=
  match l with
  | [] => false
  | x :: l' => existsb (atom_eq x) l' || has_repeat l'
  end.

(** ** Keys of a schema *)

Section Specification.

Variable callables : string -> pyval -> exc pyval.
Variable validators : gmap string validator.

Implicit Types (d data specs items kv : dict) (key : string) (v : pyval).

(** The value under a key after its KeySpec's conversion, if it declares one. *)
Definition converted_value kv v : exc pyval :=
  let conv_func := get kv "convert_to" in
  if truthy conv_func then call callables conv_func v else Ok v.

(** The validator the KeySpec resolves to, applied to a value: the value as
    the validator leaves it, and its outcome.  No [type:] entry means no
    check; a tag that is not in the table is a failure of its own. *)
Definition resolved_check kv v : pyval * exc msg :=
  match find_type kv with
  | None => (v, Ok None)
  | Some (k, val_params) =>
      match validators !! k with
      | None => (v, Ok (Some (no_validator k)))
      | Some val_func => v_call val_func v val_params
      end
  end.

(** The key's validator succeeds on the (converted) value. *)
Definition key_passes (key_validator : pyval) v : bool :=
  match key_validator with
  | PDict kv =>
      match converted_value kv v with
      | Ok v' =>
          match snd (resolved_check kv v') with
          | Ok m => negb (msg_truthy m)
          | Raise _ => false
          end
      | Raise _ => false
      end
  | _ => false
  end.

(** The value under a key once conversion and validation are through. *)
Definition value_after (key_validator : pyval) v : option pyval :=
  match key_validator with
  | PDict kv =>
      match converted_value kv v with
      | Ok v' => Some (fst (resolved_check kv v'))
      | Raise _ => None
      end
  | _ => None
  end.

Definition is_required (key_validator : pyval) : bool :=
  match key_validator with
  | PDict kv => truthy (get kv "required")
  | _ => false
  end.

(** What the spec asks of a payload [d] under a schema [specs]: the required
    keys are present, no key is undeclared, and every declared key that is
    present passes. *)
Definition schema_admits d specs : bool :=
  forallb (fun ks => implb (is_required (snd ks)) (contains d (fst ks))) specs
  && forallb (contains specs) (keys d)
  && forallb (fun ks =>
                match lookup d (fst ks) with
                | Some v => key_passes (snd ks) v
                | None => true
                end) specs.

(** Every key of [items] is a key of [data]. *)
Definition all_present items data : Prop :=
  forall key, In key (keys items) -> contains data key = true.

(** [validate_dict] gets to the key [key] of a schema: the KeySpecs are
    dicts, the required keys are present and no key of the payload is
    undeclared, so that the loop over the schema is entered; [key] is a key of
    the loop, and the keys the loop visits before it all pass. *)
Definition reaches d specs (key : string) (key_validator : pyval) : Prop :=
  unique (keys specs) = true /\
  forallb is_dict (map snd specs) = true /\
  forallb (fun ks => implb (is_required (snd ks)) (contains d (fst ks))) specs = true /\
  forallb (contains specs) (keys d) = true /\
  exists pre post,
    present_items specs d = (pre ++ (key, key_validator) :: post)%list /\
    forallb (fun ks => key_passes (snd ks) (get d (fst ks))) pre = true.

End Specification.

(** Every validator of the table leaves its argument as it found it. *)
Definition read_only (validators : gmap string validator) : Prop :=
  forall k val_func x val_params,
    validators !! k = Some val_func -> fst (v_call val_func x val_params) = x.

(** No validator of the table raises. *)
Definition never_raises (validators : gmap string validator) : Prop :=
  forall k val_func x val_params,
    validators !! k = Some val_func -> exists m, snd (v_call val_func x val_params) = Ok m.

(** No KeySpec of the schema declares a conversion. *)
Definition no_conversion (specs : dict) : Prop :=
  forall key kv, In (key, PDict kv) specs -> truthy (get kv "convert_to") = false.

(** Every character of the string is whitespace. *)
Fixpoint blank (s : string) : bool :=
  match s with
  | EmptyString => true
  | String c s' => str_isspace c && blank s'
  end.

(** A pool entry as [validate_ip_pools] wants it: a dict of exactly the keys
    [start] and [end], both accepted as addresses. *)
Definition pool_ok (IPAddress : string -> option address) (ip_pool : pyval) : Prop :=
  exists d, ip_pool = PDict d /\
    (forall k, In k (keys d) <-> k = "start" \/ k = "end") /\
    validate_ip_address IPAddress (get d "start") PNone = None /\
    validate_ip_address IPAddress (get d "end") PNone = None.

(** A route entry as [validate_hostroutes] wants it. *)
Definition route_ok (IPAddress : string -> option address)
    (IPNetwork : string -> option network) (hostroute : pyval) : Prop :=
  exists d, hostroute = PDict d /\
    (forall k, In k (keys d) <-> k = "destination" \/ k = "nexthop") /\
    validate_subnet IPNetwork (get d "destination") PNone = None /\
    validate_ip_address IPAddress (get d "nexthop") PNone = None.

(** Every item differs from the items after it. *)
Fixpoint different (l : list pyval) : Prop :=
  match l with
  | [] => True
  | x :: l' => (forall y, In y l' -> py_eq x y = false) /\ different l'
  end.

(** The [ip_address] values of the entries that have one, in order. *)
Fixpoint fixed_addresses (l : list pyval) : list pyval :=
  match l with
  | [] => []
  | PDict d :: rest =>
      if contains d "ip_address" then get d "ip_address" :: fixed_addresses rest
      else fixed_addresses rest
  | _ :: rest => fixed_addresses rest
  end.

(** A fixed IP entry as [validate_fixed_ips] wants it: a dict whose
    [ip_address], if any, is accepted as an address and whose [subnet_id], if
    any, looks like a UUID. *)
Definition fixed_ip_ok (IPAddress : string -> option address)
    (is_uuid_like : pyval -> bool) (fixed_ip : pyval) : Prop :=
  exists d, fixed_ip = PDict d /\
    (contains d "ip_address" = true ->
     validate_ip_address IPAddress (get d "ip_address") PNone = None) /\
    (contains d "subnet_id" = true -> is_uuid_like (get d "subnet_id") = true).

(** The [port_id] of each entry, in order. *)
Definition port_ids (l : list pyval) : list pyval :=
  map (fun subport => match subport with PDict d => get d "port_id" | _ => PNone end) l.

(** A subport as [validate_subports] wants it: a dict with a [port_id] that
    looks like a UUID and, when it has any other key, with a
    [segmentation_id] and a [segmentation_type] that are both true values. *)
Definition subport_ok (is_uuid_like : pyval -> bool) (subport : pyval) : Prop :=
  exists d, subport = PDict d /\
    contains d "port_id" = true /\
    is_uuid_like (get d "port_id") = true /\
    ((1 < length d)%nat ->
     truthy (get d "segmentation_id") = true /\
     truthy (get d "segmentation_type") = true).

(** A few addresses as [netaddr] reads them, for the examples. *)
Definition sample_IPAddress (s : string) : option address :=
  if String.eqb s "10.0.0.1" then Some (Address 4 "10.0.0.1")
  else if String.eqb s "10.0.0.2" then Some (Address 4 "10.0.0.2")
  else if String.eqb s "010.0.0.1" then Some (Address 4 "10.0.0.1")
  else if String.eqb s "10.1" then Some (Address 4 "10.0.0.1")
  else if String.eqb s "::1" then Some (Address 6 "::1")
  else None.

Definition sample_IPNetwork (s : string) : option network :=
  if String.eqb s "10.0.0.0/24" then Some (Network 4 "10.0.0.0/24" "10.0.0.0/24")
  else if String.eqb s "10.0.0.0" then Some (Network 4 "10.0.0.0/32" "10.0.0.0/32")
  else None.

Definition sample_is_uuid_like (v : pyval) : bool :=
  match v with
  | PStr s => (String.length s =? 36)%nat
  | _ => false
  end.

(** * Properties *)

(** ** Range check *)

Lemma validate_range_two_ints (z lo hi : Z) :
  validate_range (PInt z) (PList [PInt lo; PInt hi]) =
    if z <? lo then Ok (Some (too_small z lo))
    else if hi <? z then Ok (Some (too_large z hi))
    else Ok None.
Proof. reflexivity. Qed.

Lemma validate_range_no_lower (z hi : Z) :
  validate_range (PInt z) (PList [UNLIMITED; PInt hi]) =
    if hi <? z then Ok (Some (too_large z hi)) else Ok None.
Proof. reflexivity. Qed.

Lemma validate_range_no_upper (z lo : Z) :
  validate_range (PInt z) (PList [PInt lo; UNLIMITED]) =
    if z <? lo then Ok (Some (too_small z lo)) else Ok None.
Proof. reflexivity. Qed.

(** C7: [validate_range] accepts exactly the integers between the two bounds,
    both included, a bound of [None] (UNLIMITED) constrains nothing, and the
    five calls of the spec give success, success, success, the "too small"
    message and the "too large" message. *)
Theorem validate_range_inclusive :
  (forall z lo hi : Z,
      validate_range (PInt z) (PList [PInt lo; PInt hi]) = Ok None <-> lo <= z <= hi) /\
  (forall z hi : Z,
      validate_range (PInt z) (PList [UNLIMITED; PInt hi]) = Ok None <-> z <= hi) /\
  (forall z lo : Z,
      validate_range (PInt z) (PList [PInt lo; UNLIMITED]) = Ok None <-> lo <= z) /\
  (forall z : Z, validate_range (PInt z) (PList [UNLIMITED; UNLIMITED]) = Ok None) /\
  validate_range (PInt 5) (PList [PNone; PInt 10]) = Ok None /\
  validate_range (PInt 0) (PList [PInt 0; PInt 10]) = Ok None /\
  validate_range (PInt 10) (PList [PInt 0; PInt 10]) = Ok None /\
  validate_range (PInt (-1)) (PList [PInt 0; PInt 10])
    = Ok (Some "'-1' is too small - must be at least '0'") /\
  validate_range (PInt 11) (PList [PInt 0; PInt 10])
    = Ok (Some "'11' is too large - must be no larger than '10'").
Proof.
  split; [| split; [| split; [| repeat split]]].
  - intros z lo hi. rewrite validate_range_two_ints.
    destruct (Z.ltb_spec z lo); [split; [discriminate | lia] |].
    destruct (Z.ltb_spec hi z); split; (discriminate || lia || reflexivity).
  - intros z hi. rewrite validate_range_no_lower.
    destruct (Z.ltb_spec hi z); split; (discriminate || lia || reflexivity).
  - intros z lo. rewrite validate_range_no_upper.
    destruct (Z.ltb_spec z lo); split; (discriminate || lia || reflexivity).
Qed.

(** C9, as stated, at a one-element list: the constraint cannot be indexed at
    position 1, and the call raises [IndexError], not [TypeError]. *)
Lemma validate_range_short_list_raises_IndexError :
  indexable_0_1 (PList [PInt 0]) = false /\
  validate_range (PInt 5) (PList [PInt 0]) = Raise IndexError /\
  validate_range (PInt 5) (PList [PInt 0]) <> Raise TypeError.
Proof. repeat split; discriminate. Qed.

(** C9 (amended): a constraint that cannot be indexed at 0 and 1 makes
    [validate_range] raise, whatever the data: [TypeError] for [None] and
    other values without indexing, [IndexError] for a list or string shorter
    than two, [KeyError] for a dict. *)
Theorem validate_range_unusable_constraint (data valid_values : pyval) :
  indexable_0_1 valid_values = false ->
  validate_range data valid_values = Raise (index_fault valid_values).
Proof.
  unfold indexable_0_1, validate_range.
  destruct valid_values as [| b | z | s | l | d | f]; try reflexivity.
  - destruct s as [| c0 [| c1 s]]; simpl; try reflexivity; discriminate.
  - destruct l as [| x0 [| x1 l]]; simpl; try reflexivity; discriminate.
Qed.

Lemma validate_range_unusable_constraint_witness :
  indexable_0_1 PNone = false /\
  validate_range (PStr "7") PNone = Raise TypeError.
Proof.
  split; [reflexivity |].
  apply (validate_range_unusable_constraint (PStr "7") PNone). reflexivity.
Defined.

(** ** Port range *)

Lemma split_colon (a b : string) :
  no_colon a -> split ":" (a ++ ":" ++ b) = a :: split ":" b.
Proof.
  unfold no_colon. induction a as [| c a IH]; intros Ha.
  - reflexivity.
  - simpl in *. destruct (Ascii.eqb c ":") eqn:Hc; [discriminate |].
    destruct (split ":" a) as [| p ps] eqn:Hs.
    + injection Ha as Ha. subst a. discriminate.
    + injection Ha as Hp Hps. subst. rewrite IH; reflexivity.
Qed.

(** Two accepted ports are ordered as text: the range passes exactly when the
    first string is not above the second, code point by code point. *)
Lemma port_range_ordered_as_text (valid_port : string -> bool) (a b : string) :
  no_colon a -> no_colon b -> a <> "" -> b <> "" ->
  valid_port a = true -> valid_port b = true ->
  validate_port_range_or_none valid_port (PStr (a ++ ":" ++ b)) PNone =
    if str_gt a b
    then Ok (Some "First port in a port range must be lower than the second port.")
    else Ok None.
Proof.
  intros Ha Hb Hna Hnb Hva Hvb.
  unfold validate_port_range_or_none. simpl bind. cbv iota beta.
  rewrite (split_colon a b Ha). rewrite Hb.
  change (2 <? length [a; b])%nat with false. cbv iota.
  unfold check_ports. rewrite Hva, Hvb.
  destruct a; [contradiction |]. destruct b; [contradiction |].
  reflexivity.
Qed.

(** C4 at ["9:10"]: both ports are accepted and 9 < 10, yet the range is
    refused, because the two strings are compared, not their values. *)
Theorem port_range_9_10_refused :
  is_valid_port "9" = true /\ is_valid_port "10" = true /\
  int_of_string "9" = Some 9 /\ int_of_string "10" = Some 10 /\
  str_gt "9" "10" = true /\
  validate_port_range_or_none is_valid_port (PStr "9:10") PNone
    = Ok (Some "First port in a port range must be lower than the second port.").
Proof. repeat split. Qed.

(** The same at ["80:443"], and an equal pair passes. *)
Example port_range_80_443 :
  validate_port_range_or_none is_valid_port (PStr "80:443") PNone
    = Ok (Some "First port in a port range must be lower than the second port.") /\
  validate_port_range_or_none is_valid_port (PStr "5:5") PNone = Ok None /\
  validate_port_range_or_none is_valid_port (PStr "80:443:1") PNone
    = Ok (Some "Port range must be two integers separated by a colon.") /\
  validate_port_range_or_none is_valid_port (PInt 80) PNone
    = Ok (Some "Port range must be a string.").
Proof. repeat split. Qed.

(** ** List of unique items *)

Section ListOfItems.

Variable item_validator : pyval -> exc msg.

Lemma distinct_length (l : list pyval) : (length (distinct l) <= length l)%nat.
Proof.
  induction l as [| x l IH]; simpl; [lia |].
  destruct (existsb (atom_eq x) l); simpl; lia.
Qed.

Lemma distinct_repeat (l : list pyval) :
  Nat.eqb (length (distinct l)) (length l) = negb (has_repeat l).
Proof.
  induction l as [| x l IH]; simpl; [reflexivity |].
  pose proof (distinct_length l) as Hle.
  destruct (existsb (atom_eq x) l); simpl.
  - apply Nat.eqb_neq. lia.
  - exact IH.
Qed.

(** On a list of hashable items the check behaves as described: a repeated
    item stops it before any item is validated; otherwise the items are
    validated in order. *)
Lemma list_of_items_hashable (l : list pyval) :
  forallb hashable l = true ->
  _validate_list_of_items item_validator (PList l) =
    if has_repeat l then
      bind (join_values ", " l) (fun s =>
        Ok (Some ("Duplicate items in the list: '" ++ s ++ "'")))
    else first_failure item_validator l.
Proof.
  intros Hh. unfold _validate_list_of_items, set_len. rewrite Hh. simpl bind.
  rewrite distinct_repeat. destruct (has_repeat l); reflexivity.
Qed.

Lemma strings_hashable (ss : list string) : forallb hashable (map PStr ss) = true.
Proof. induction ss; simpl; auto. Qed.

Lemma strings_of_strings (ss : list string) : strings_of (map PStr ss) = Some ss.
Proof. induction ss as [| s ss IH]; simpl; [| rewrite IH]; reflexivity. Qed.

(** On a list of strings a repeated item always gives the message. *)
Lemma list_of_items_strings (ss : list string) :
  _validate_list_of_items item_validator (PList (map PStr ss)) =
    if has_repeat (map PStr ss) then
      Ok (Some ("Duplicate items in the list: '" ++ join ", " ss ++ "'"))
    else first_failure item_validator (map PStr ss).
Proof.
  rewrite list_of_items_hashable by apply strings_hashable.
  unfold join_values. rewrite strings_of_strings. reflexivity.
Qed.

(** The loop passes exactly when no item gets a message. *)
Lemma first_failure_passes (l : list pyval) :
  first_failure item_validator l = Ok None <->
  Forall (fun item => exists m, item_validator item = Ok m /\ msg_truthy m = false) l.
Proof.
  induction l as [| x l IH]; simpl.
  - split; [constructor | reflexivity].
  - destruct (item_validator x) as [m | e] eqn:Hx.
    + destruct (msg_truthy m) eqn:Hm.
      * split.
        -- intros H. injection H as H. subst m. discriminate.
        -- intros H. inversion H as [| ? ? [m' [Hm' Hf]] ?]; subst.
           congruence.
      * rewrite IH. split.
        -- intros H. constructor; [exists m; auto | exact H].
        -- intros H. inversion H; assumption.
    + split; [discriminate |].
      intros H. inversion H as [| ? ? [m' [Hm' _]] ?]. congruence.
Qed.

(** Data that is not a list gets the message. *)
Lemma list_of_items_not_a_list (data : pyval) :
  (forall l, data <> PList l) ->
  _validate_list_of_items item_validator data
    = Ok (Some ("'" ++ py_str data ++ "' is not a list")).
Proof. intros H. destruct data as [| | | | l | |]; try reflexivity. destruct (H l eq_refl). Qed.

End ListOfItems.

(** C5 at [[[1], [2]]] with the string validator: a list without a repeated
    item whose first item the validator refuses with a message; the check
    raises [TypeError] from [set(data)] instead of returning that message.
    A repeated item that is no string raises from [join] in the same way. *)
Theorem list_of_items_unhashable_raises :
  let X := fun item => validate_string item PNone in
  has_repeat [PList [PInt 1]; PList [PInt 2]] = false /\
  first_failure X [PList [PInt 1]; PList [PInt 2]]
    = Ok (Some "'[1]' is not a valid string") /\
  _validate_list_of_items X (PList [PList [PInt 1]; PList [PInt 2]]) = Raise TypeError /\
  _validate_list_of_items (fun _ => Ok None) (PList [PInt 1; PInt 1]) = Raise TypeError.
Proof. repeat split. Qed.

(** C8 at [[1, 1]] and at [[[]]]: the registered validator
    [type:list_of_unique_strings] raises [TypeError] on these data, under a
    constraint ([None]) that is usable. *)
Theorem registered_validator_raises_on_data :
  exists v : validator,
    leaf_validators !! "type:list_of_unique_strings" = Some v /\
    snd (v_call v (PList [PInt 1; PInt 1]) PNone) = Raise TypeError /\
    snd (v_call v (PList [PList []]) PNone) = Raise TypeError /\
    snd (v_call v (PList [PStr "a"; PStr "b"]) PNone) = Ok None.
Proof. eexists. split; [reflexivity |]. repeat split. Qed.

(** The whitespace check raises by its own contract; it is not in the table
    and its callers catch what it raises. *)
Example validate_no_whitespace_raises :
  validate_no_whitespace (PStr "a b") = Raise (InvalidInput "'a b' contains whitespace") /\
  validate_no_whitespace (PStr "ab") = Ok (PStr "ab").
Proof. split; reflexivity. Qed.

(** ** Registry *)

Section Registry.

Implicit Types (validators : gmap string validator) (v : validator) (tag : string).





(** The tag is normalised once: a normalised tag is left as it is. *)
Lemma _to_validation_type_idem tag :
  _to_validation_type (_to_validation_type tag) = _to_validation_type tag.
Proof.
  unfold _to_validation_type at 2 3.
  destruct (String.prefix "type:" tag) eqn:Hp.
  - unfold _to_validation_type. rewrite Hp. reflexivity.
  - unfold _to_validation_type.
    replace (String.prefix "type:" ("type:" ++ tag)) with true
      by (destruct tag; reflexivity).
    reflexivity.
Qed.

End Registry.




(** ** Dicts *)

Section DictFacts.

Implicit Types (d : dict) (k : string) (v : pyval).

Lemma lookup_setitem_eq d k v : lookup (setitem d k v) k = Some v.
Proof.
  induction d as [| [k' v'] d IH]; simpl.
  - rewrite String.eqb_refl. reflexivity.
  - destruct (String.eqb k' k) eqn:Hk; simpl; rewrite Hk; [reflexivity | exact IH].
Qed.

Lemma lookup_setitem_ne d k k' v : k <> k' -> lookup (setitem d k v) k' = lookup d k'.
Proof.
  intros Hne. induction d as [| [k0 v0] d IH]; simpl.
  - destruct (String.eqb_spec k k'); [contradiction | reflexivity].
  - destruct (String.eqb_spec k0 k) as [-> | Hk]; simpl.
    + destruct (String.eqb_spec k k'); [contradiction | reflexivity].
    + rewrite IH. reflexivity.
Qed.

Lemma setitem_same d k v : lookup d k = Some v -> setitem d k v = d.
Proof.
  induction d as [| [k' v'] d IH]; simpl; [discriminate |].
  destruct (String.eqb k' k); intros H.
  - injection H as ->. reflexivity.
  - rewrite IH by assumption. reflexivity.
Qed.

Lemma setitem_setitem d k v v' : setitem (setitem d k v) k v' = setitem d k v'.
Proof.
  induction d as [| [k0 v0] d IH]; simpl.
  - rewrite String.eqb_refl. reflexivity.
  - destruct (String.eqb k0 k) eqn:Hk; simpl; rewrite Hk; [reflexivity |].
    rewrite IH. reflexivity.
Qed.

Lemma writeback_present d k v x : lookup d k = Some v -> writeback d k x = setitem d k x.
Proof.
  induction d as [| [k' v'] d IH]; simpl; [discriminate |].
  destruct (String.eqb k' k); intros H; [reflexivity |].
  rewrite IH by assumption. reflexivity.
Qed.

Lemma contains_lookup d k : contains d k = true <-> exists v, lookup d k = Some v.
Proof.
  unfold contains. destruct (lookup d k) as [v |].
  - split; [eauto | reflexivity].
  - split; [discriminate | intros [v H]; discriminate].
Qed.

Lemma contains_keys d k : contains d k = true <-> In k (keys d).
Proof.
  unfold contains. induction d as [| [k' v'] d IH]; simpl.
  - split; [discriminate | contradiction].
  - destruct (String.eqb_spec k' k) as [-> | Hk].
    + split; auto.
    + rewrite IH. split; [auto | intros [H | H]; [contradiction | exact H]].
Qed.

Lemma forallb_ext_in {A} (f g : A -> bool) (l : list A) :
  (forall x, In x l -> f x = g x) -> forallb f l = forallb g l.
Proof.
  induction l as [| x l IH]; simpl; intros H; [reflexivity |].
  rewrite (H x) by (left; reflexivity). rewrite IH by (intros; apply H; right; assumption).
  reflexivity.
Qed.

Lemma str_mem_In (x : string) (l : list string) : str_mem x l = true <-> In x l.
Proof.
  unfold str_mem. rewrite existsb_exists. split.
  - intros [y [Hy Heq]]. apply String.eqb_eq in Heq. subst. exact Hy.
  - intros H. exists x. split; [exact H | apply String.eqb_refl].
Qed.

Lemma unique_cons (x : string) (l : list string) :
  unique (x :: l) = true -> ~ In x l /\ unique l = true.
Proof.
  simpl. intros H. apply andb_prop in H as [Hx Hu]. split; [| exact Hu].
  intros Hin. apply str_mem_In in Hin. rewrite Hin in Hx. discriminate.
Qed.

Lemma In_keys d k v : In (k, v) d -> In k (keys d).
Proof. intros H. change (In (fst (k, v)) (map fst d)). apply in_map. exact H. Qed.

Lemma In_lookup d k v : unique (keys d) = true -> In (k, v) d -> lookup d k = Some v.
Proof.
  induction d as [| [k' v'] d IH]; simpl; [contradiction |].
  intros Hu [H | H].
  - injection H as -> ->. rewrite String.eqb_refl. reflexivity.
  - apply andb_prop in Hu as [Hnotin Hu].
    destruct (String.eqb_spec k' k) as [-> | Hk].
    + apply In_keys, str_mem_In in H. fold (keys d) in Hnotin.
      rewrite H in Hnotin. discriminate.
    + apply IH; assumption.
Qed.

Lemma lookup_In d k v : lookup d k = Some v -> In (k, v) d.
Proof.
  induction d as [| [k' v'] d IH]; simpl; [discriminate |].
  destruct (String.eqb_spec k' k) as [-> | Hk]; intros H.
  - injection H as ->. left. reflexivity.
  - right. apply IH. exact H.
Qed.

Lemma lookup_filter_keys (p : string -> bool) d k :
  p k = true -> lookup (List.filter (fun kv => p (fst kv)) d) k = lookup d k.
Proof.
  intros Hp. induction d as [| [k' v'] d IH]; simpl; [reflexivity |].
  destruct (String.eqb_spec k' k) as [-> | Hk].
  - rewrite Hp. simpl. rewrite String.eqb_refl. reflexivity.
  - destruct (p k'); simpl; [| exact IH].
    destruct (String.eqb_spec k' k); [contradiction | exact IH].
Qed.

Lemma keys_filter (p : string -> bool) d :
  keys (List.filter (fun kv => p (fst kv)) d) = List.filter p (keys d).
Proof.
  induction d as [| [k' v'] d IH]; simpl; [reflexivity |].
  destruct (p k'); simpl; rewrite IH; reflexivity.
Qed.

Lemma unique_filter (p : string -> bool) (l : list string) :
  unique l = true -> unique (List.filter p l) = true.
Proof.
  induction l as [| x l IH]; simpl; [reflexivity |].
  intros Hu. apply andb_prop in Hu as [Hx Hu].
  destruct (p x); simpl; [| auto].
  rewrite IH by assumption. rewrite andb_true_r.
  destruct (str_mem x (List.filter p l)) eqn:Hm; [| reflexivity].
  apply str_mem_In, filter_In in Hm as [Hm _]. apply str_mem_In in Hm.
  rewrite Hm in Hx. discriminate.
Qed.

Lemma keys_app d1 d2 : keys (d1 ++ d2)%list = (keys d1 ++ keys d2)%list.
Proof. apply map_app. Qed.

Lemma unique_app (l1 l2 : list string) (x : string) :
  unique (l1 ++ x :: l2)%list = true -> unique l1 = true /\ ~ In x l1.
Proof.
  induction l1 as [| y l1 IH]; simpl; intros Hu; [split; [reflexivity | auto] |].
  apply andb_prop in Hu as [Hy Hu]. destruct (IH Hu) as [Hu1 Hx].
  split.
  - rewrite Hu1, andb_true_r.
    destruct (str_mem y l1) eqn:Hm; [| reflexivity].
    apply str_mem_In in Hm.
    assert (Hin : In y (l1 ++ x :: l2)%list) by (apply in_or_app; left; exact Hm).
    apply str_mem_In in Hin. rewrite Hin in Hy. discriminate.
  - intros [-> | Hin]; [| exact (Hx Hin)].
    assert (Hin : In x (l1 ++ x :: l2)%list)
      by (apply in_or_app; right; left; reflexivity).
    apply str_mem_In in Hin. rewrite Hin in Hy. discriminate.
Qed.

Lemma contains_setitem d k v k' :
  contains (setitem d k v) k' = String.eqb k k' || contains d k'.
Proof.
  unfold contains. destruct (String.eqb_spec k k') as [<- | Hne]; simpl.
  - rewrite lookup_setitem_eq. reflexivity.
  - rewrite lookup_setitem_ne by assumption. reflexivity.
Qed.

Lemma keys_setitem_value d k v v' : keys (setitem d k v) = keys (setitem d k v').
Proof.
  induction d as [| [k0 v0] d IH]; simpl; [reflexivity |].
  destruct (String.eqb k0 k); simpl; [reflexivity |]. rewrite IH. reflexivity.
Qed.

End DictFacts.

(** ** Dict schema validator *)

Section EngineFacts.

Variable callables : string -> pyval -> exc pyval.
Variable validators : gmap string validator.

Implicit Types (d data specs items kv : dict) (key : string) (v : pyval).

(** *** One key *)

Lemma _validate_dict_item_present key kv data v :
  lookup data key = Some v ->
  _validate_dict_item callables validators key (PDict kv) data =
    match converted_value callables kv v with
    | Raise e => (data, Raise e)
    | Ok v' => (setitem data key (fst (resolved_check validators kv v')), snd (resolved_check validators kv v'))
    end.
Proof.
  intros Hv. unfold _validate_dict_item, convert, converted_value, resolved_check.
  assert (Hget : get data key = v) by (unfold get; rewrite Hv; reflexivity).
  rewrite Hget.
  destruct (truthy (get kv "convert_to")).
  - destruct (call callables (get kv "convert_to") v) as [v' | e]; simpl; [| reflexivity].
    assert (Hget' : get (setitem data key v') key = v')
      by (unfold get; rewrite lookup_setitem_eq; reflexivity).
    destruct (find_type kv) as [[k val_params] |]; [| reflexivity].
    destruct (validators !! k) as [val_func |]; [| reflexivity].
    rewrite Hget'. destruct (v_call val_func v' val_params) as [x r]. simpl.
    rewrite (writeback_present _ _ v') by apply lookup_setitem_eq.
    rewrite setitem_setitem. reflexivity.
  - destruct (find_type kv) as [[k val_params] |]; simpl.
    + destruct (validators !! k) as [val_func |]; simpl.
      * rewrite Hget. destruct (v_call val_func v val_params) as [x r]. simpl.
        rewrite (writeback_present _ _ v) by assumption. reflexivity.
      * rewrite setitem_same by assumption. reflexivity.
    + rewrite setitem_same by assumption. reflexivity.
Qed.

(** A key's step writes under that key only. *)
Lemma _validate_dict_item_frame key key_validator data k :
  contains data key = true -> k <> key ->
  lookup (fst (_validate_dict_item callables validators key key_validator data)) k
    = lookup data k.
Proof.
  intros Hc Hne. apply contains_lookup in Hc as [v Hv].
  destruct key_validator as [| | | | | kv |]; try reflexivity.
  rewrite (_validate_dict_item_present _ _ _ v) by assumption.
  destruct (converted_value callables kv v); simpl; [| reflexivity].
  apply lookup_setitem_ne. congruence.
Qed.

Lemma _validate_dict_item_outcome key key_validator data v :
  lookup data key = Some v ->
  key_passes callables validators key_validator v =
    match snd (_validate_dict_item callables validators key key_validator data) with
    | Ok m => negb (msg_truthy m)
    | Raise _ => false
    end.
Proof.
  intros Hv. destruct key_validator as [| | | | | kv |]; try reflexivity.
  rewrite (_validate_dict_item_present _ _ _ v) by assumption.
  unfold key_passes. destruct (converted_value callables kv v); reflexivity.
Qed.

Lemma _validate_dict_item_value key key_validator data v m :
  lookup data key = Some v ->
  snd (_validate_dict_item callables validators key key_validator data) = Ok m ->
  exists x, value_after callables validators key_validator v = Some x /\
    lookup (fst (_validate_dict_item callables validators key key_validator data)) key
      = Some x.
Proof.
  intros Hv Hm. destruct key_validator as [| | | | | kv |]; try discriminate.
  rewrite (_validate_dict_item_present _ _ _ v) in * by assumption.
  unfold value_after. destruct (converted_value callables kv v); simpl in *; [| discriminate].
  eexists. split; [reflexivity | apply lookup_setitem_eq].
Qed.

(** *** The loop *)

Lemma all_present_step key key_validator items data :
  all_present ((key, key_validator) :: items) data ->
  all_present items (fst (_validate_dict_item callables validators key key_validator data)).
Proof.
  intros Hp k Hk.
  assert (Hkey : contains data key = true) by (apply Hp; left; reflexivity).
  destruct (String.eqb_spec k key) as [-> | Hne].
  - apply contains_lookup in Hkey as [v Hv].
    destruct key_validator as [| | | | | kv |];
      try (apply contains_lookup; exists v; exact Hv).
    rewrite (_validate_dict_item_present _ _ _ v) by assumption.
    destruct (converted_value callables kv v); simpl; apply contains_lookup.
    + eexists. apply lookup_setitem_eq.
    + exists v. exact Hv.
  - unfold contains. rewrite _validate_dict_item_frame by assumption.
    apply (Hp k). right. exact Hk.
Qed.

Lemma validate_items_passes items : forall data,
  unique (keys items) = true -> all_present items data ->
  (snd (validate_items callables validators items data) = Ok None <->
   forallb (fun ks => key_passes callables validators (snd ks) (get data (fst ks))) items = true).
Proof.
  induction items as [| [key key_validator] items IH]; intros data Hu Hp; simpl.
  - split; reflexivity.
  - apply (unique_cons key (keys items)) in Hu as [Hnotin Hu].
    assert (Hkey : contains data key = true) by (apply Hp; left; reflexivity).
    apply contains_lookup in Hkey as [v Hv].
    assert (Hget : get data key = v) by (unfold get; rewrite Hv; reflexivity).
    rewrite Hget, (_validate_dict_item_outcome key key_validator data v Hv).
    pose proof (all_present_step _ _ _ _ Hp) as Hp'.
    pose proof (fun k => _validate_dict_item_frame key key_validator data k
                           (proj2 (contains_lookup _ _) (ex_intro _ v Hv))) as Hframe.
    destruct (_validate_dict_item callables validators key key_validator data)
      as [data1 r]. simpl in *.
    destruct r as [m | e]; simpl.
    + destruct (msg_truthy m) eqn:Hm; simpl.
      * split; [| discriminate]. intros H. injection H as ->. discriminate.
      * rewrite (IH data1 Hu Hp').
        assert (Hext : forallb (fun ks => key_passes callables validators (snd ks) (get data1 (fst ks))) items
                       = forallb (fun ks => key_passes callables validators (snd ks) (get data (fst ks))) items).
        { apply forallb_ext_in. intros [k s] Hin. simpl. unfold get.
          rewrite Hframe; [reflexivity |].
          intros ->. apply Hnotin. apply (In_keys _ _ s). exact Hin. }
        rewrite Hext. reflexivity.
    + split; discriminate.
Qed.

Lemma validate_items_state items : forall data data',
  unique (keys items) = true -> all_present items data ->
  validate_items callables validators items data = (data', Ok None) ->
  forall key v, lookup data key = Some v ->
    exists x, lookup data' key = Some x /\
      match lookup items key with
      | Some key_validator => value_after callables validators key_validator v
      | None => Some v
      end = Some x.
Proof.
  induction items as [| [k0 key_validator] items IH]; intros data data' Hu Hp Hrun key v Hv;
    simpl in *.
  - injection Hrun as <-. exists v. split; [exact Hv | reflexivity].
  - apply (unique_cons k0 (keys items)) in Hu as [Hnotin Hu].
    assert (Hk0 : contains data k0 = true) by (apply Hp; left; reflexivity).
    pose proof (all_present_step _ _ _ _ Hp) as Hp'.
    pose proof (fun k => _validate_dict_item_frame k0 key_validator data k Hk0) as Hframe.
    pose proof (_validate_dict_item_value k0 key_validator data) as Hvalue.
    destruct (_validate_dict_item callables validators k0 key_validator data)
      as [data1 r]. simpl in *.
    destruct r as [m | e]; [| discriminate].
    destruct (msg_truthy m) eqn:Hm.
    { injection Hrun as _ ->. discriminate. }
    destruct (String.eqb_spec k0 key) as [-> | Hne].
    + destruct (Hvalue v m Hv eq_refl) as [x [Hafter Hx]].
      destruct (IH data1 data' Hu Hp' Hrun key x Hx) as [y [Hy Hxy]].
      exists y. split; [exact Hy |]. rewrite Hafter.
      destruct (lookup items key) as [s |] eqn:Hl; [| exact Hxy].
      exfalso. apply Hnotin. apply (In_keys _ _ s), lookup_In. exact Hl.
    + apply (IH data1 data' Hu Hp' Hrun key v). rewrite Hframe by congruence. exact Hv.
Qed.

(** The loop over a list of keys is the loop over its first part, followed,
    when that part passes, by the loop over the rest. *)
Lemma validate_items_app pre rest : forall data,
  validate_items callables validators (pre ++ rest)%list data =
    match validate_items callables validators pre data with
    | (data1, Ok None) => validate_items callables validators rest data1
    | (data1, r) => (data1, r)
    end.
Proof.
  induction pre as [| [key key_validator] pre IH]; intros data; [reflexivity |].
  cbn [app validate_items].
  destruct (_validate_dict_item callables validators key key_validator data) as [data1 r].
  destruct r as [m | e]; [| reflexivity].
  destruct m as [s |]; [| apply IH].
  destruct (msg_truthy (Some s)); [reflexivity | apply IH].
Qed.

(** The loop writes under its own keys only. *)
Lemma validate_items_frame items : forall data key,
  all_present items data -> ~ In key (keys items) ->
  lookup (fst (validate_items callables validators items data)) key = lookup data key.
Proof.
  induction items as [| [k0 key_validator] items IH]; intros data key Hp Hnotin;
    [reflexivity |].
  cbn [validate_items].
  assert (Hk0 : contains data k0 = true) by (apply Hp; left; reflexivity).
  assert (Hne : key <> k0) by (intros ->; apply Hnotin; left; reflexivity).
  pose proof (all_present_step _ _ _ _ Hp) as Hp'.
  pose proof (_validate_dict_item_frame k0 key_validator data key Hk0 Hne) as Hframe.
  destruct (_validate_dict_item callables validators k0 key_validator data) as [data1 r].
  cbn [fst] in *.
  destruct r as [m | e]; [| exact Hframe].
  destruct (msg_truthy m); [exact Hframe |].
  rewrite IH; [exact Hframe | exact Hp' |].
  intros Hin. apply Hnotin. right. exact Hin.
Qed.

End EngineFacts.

(** *** Key sets *)

Lemma str_set_In (x : string) (l : list string) : In x (str_set l) <-> In x l.
Proof.
  induction l as [| y l IH]; simpl; [reflexivity |].
  destruct (existsb (String.eqb y) l) eqn:Hy.
  - rewrite IH. split; [auto |]. intros [<- | H]; [| exact H].
    apply (str_mem_In y l). exact Hy.
  - simpl. rewrite IH. reflexivity.
Qed.

Lemma issubset_spec (a b : list string) :
  issubset a b = true <-> (forall x, In x a -> In x b).
Proof.
  unfold issubset. rewrite forallb_forall. split; intros H x Hx.
  - apply str_mem_In. apply H. exact Hx.
  - apply str_mem_In. apply H. exact Hx.
Qed.

Lemma bool_iff_eq (a b : bool) : (a = true <-> b = true) -> a = b.
Proof. destruct a, b; intros [H1 H2]; auto; try (symmetry; auto). Qed.

(** The required keys are looked for among the provided ones. *)
Lemma _verify_dict_keys_subset (expected_keys : list string) (d : dict) :
  msg_truthy (_verify_dict_keys expected_keys (PDict d) false)
    = negb (forallb (contains d) expected_keys).
Proof.
  unfold _verify_dict_keys.
  assert (H : issubset (str_set expected_keys) (str_set (keys d))
              = forallb (contains d) expected_keys).
  { apply bool_iff_eq. rewrite issubset_spec, forallb_forall. split; intros H x Hx.
    - apply contains_keys. apply str_set_In. apply H. apply str_set_In. exact Hx.
    - apply str_set_In. apply contains_keys. apply H. apply str_set_In. exact Hx. }
  rewrite H. destruct (forallb (contains d) expected_keys); reflexivity.
Qed.

Lemma required_keys_dicts (callables : string -> pyval -> exc pyval)
    (validators : gmap string validator) (specs : dict) :
  forallb is_dict (map snd specs) = true ->
  required_keys specs = Ok (keys (List.filter (fun ks => is_required (snd ks)) specs)).
Proof.
  induction specs as [| [key spec] specs IH]; simpl; [reflexivity |].
  intros H. apply andb_prop in H as [Hd H].
  destruct spec; try discriminate. rewrite IH by assumption. simpl.
  destruct (truthy (get d "required")); reflexivity.
Qed.

Lemma required_present (d specs : dict) :
  forallb (contains d) (keys (List.filter (fun ks => is_required (snd ks)) specs))
    = forallb (fun ks => implb (is_required (snd ks)) (contains d (fst ks))) specs.
Proof.
  induction specs as [| [key spec] specs IH]; simpl; [reflexivity |].
  destruct (is_required spec); simpl; rewrite IH; reflexivity.
Qed.

Lemma unexpected_keys_none (d specs : dict) :
  unexpected_keys d specs = [] <-> forallb (contains specs) (keys d) = true.
Proof.
  unfold unexpected_keys. induction (keys d) as [| k ks IH]; simpl.
  - split; reflexivity.
  - destruct (contains specs k); simpl; [exact IH |]. split; discriminate.
Qed.

Lemma present_items_pass (f : pyval -> pyval -> bool) (d specs : dict) :
  forallb (fun ks => f (snd ks) (get d (fst ks))) (present_items specs d)
    = forallb (fun ks =>
                 match lookup d (fst ks) with
                 | Some v => f (snd ks) v
                 | None => true
                 end) specs.
Proof.
  unfold present_items, contains, get.
  induction specs as [| [key spec] specs IH]; simpl; [reflexivity |].
  destruct (lookup d key) as [v |] eqn:Hv; simpl; rewrite ?Hv, IH; reflexivity.
Qed.

Lemma present_items_unique (d specs : dict) :
  unique (keys specs) = true -> unique (keys (present_items specs d)) = true.
Proof.
  intros Hu. unfold present_items.
  rewrite (keys_filter (contains d)). apply unique_filter. exact Hu.
Qed.

Lemma present_items_present (d specs : dict) (key : string) :
  In key (keys (present_items specs d)) -> contains d key = true.
Proof.
  unfold present_items. rewrite (keys_filter (contains d)).
  intros H. apply filter_In in H as [_ H]. exact H.
Qed.

Lemma present_items_lookup (d specs : dict) (key : string) :
  contains d key = true -> lookup (present_items specs d) key = lookup specs key.
Proof. intros H. unfold present_items. apply (lookup_filter_keys (contains d)). exact H. Qed.

Lemma find_type_first (pre post : dict) (k : string) (val_params : pyval) :
  find_type pre = None -> String.prefix "type:" k = true ->
  find_type (pre ++ (k, val_params) :: post)%list = Some (k, val_params).
Proof.
  intros Hpre Hk. induction pre as [| [k0 v0] pre IH]; simpl in *.
  - rewrite Hk. reflexivity.
  - destruct (String.prefix "type:" k0); [discriminate | auto].
Qed.

Lemma find_type_none (kv : dict) :
  find_type kv = None <-> (forall k v, In (k, v) kv -> String.prefix "type:" k = false).
Proof.
  induction kv as [| [k0 v0] kv IH]; simpl.
  - split; [contradiction | reflexivity].
  - destruct (String.prefix "type:" k0) eqn:Hk0.
    + split; [discriminate |]. intros H.
      rewrite (H k0 v0) in Hk0 by (left; reflexivity). discriminate.
    + rewrite IH. split.
      * intros H k v [Heq | Hin]; [congruence | eauto].
      * intros H k v Hin. apply (H k v). right. exact Hin.
Qed.

Section DictValidator.

Variable callables : string -> pyval -> exc pyval.
Variable validators : gmap string validator.

(** With a schema that is not empty the call comes down to the three checks. *)
Lemma validate_dict_steps (d specs : dict) :
  specs <> [] -> forallb is_dict (map snd specs) = true ->
  validate_dict callables validators (PDict d) (PDict specs) =
    if negb (forallb (fun ks => implb (is_required (snd ks)) (contains d (fst ks))) specs)
    then (PDict d,
          Ok (_verify_dict_keys
                (keys (List.filter (fun ks => is_required (snd ks)) specs)) (PDict d) false))
    else
      match unexpected_keys d specs with
      | [] =>
          (PDict (fst (validate_items callables validators (present_items specs d) d)),
           snd (validate_items callables validators (present_items specs d) d))
      | unexpected =>
          (PDict d, Ok (Some ("Unexpected keys supplied: " ++ join ", " unexpected)))
      end.
Proof.
  intros Hne Hd. unfold validate_dict.
  destruct specs as [| s0 specs]; [contradiction |].
  change (negb (truthy (PDict (s0 :: specs)))) with false. cbv iota.
  rewrite (required_keys_dicts callables validators) by assumption.
  rewrite <- required_present.
  set (req := keys (List.filter (fun ks => is_required (snd ks)) (s0 :: specs))).
  pose proof (_verify_dict_keys_subset req d) as Hv.
  destruct req as [| r0 rs] eqn:Hr.
  - simpl. destruct (unexpected_keys d (s0 :: specs)); [| reflexivity].
    destruct (validate_items _ _ _ d); reflexivity.
  - rewrite Hv. destruct (forallb (contains d) (r0 :: rs)); simpl; [| reflexivity].
    destruct (unexpected_keys d (s0 :: specs)); [| reflexivity].
    destruct (validate_items _ _ _ d); reflexivity.
Qed.

Lemma validate_dict_succeeds (d specs : dict) :
  specs <> [] -> unique (keys specs) = true -> forallb is_dict (map snd specs) = true ->
  (snd (validate_dict callables validators (PDict d) (PDict specs)) = Ok None <->
   schema_admits callables validators d specs = true).
Proof.
  intros Hne Hu Hd. rewrite validate_dict_steps by assumption.
  unfold schema_admits.
  destruct (forallb (fun ks => implb (is_required (snd ks)) (contains d (fst ks))) specs)
    eqn:Hreq; simpl.
  - pose proof (unexpected_keys_none d specs) as Hun.
    destruct (unexpected_keys d specs) as [| u us]; simpl.
    + rewrite (proj1 Hun eq_refl). simpl.
      rewrite validate_items_passes.
      * rewrite (present_items_pass (key_passes callables validators)). reflexivity.
      * apply present_items_unique. exact Hu.
      * intros key. apply present_items_present.
    + destruct (forallb (contains specs) (keys d)).
      * destruct Hun as [_ Hun]. discriminate (Hun eq_refl).
      * simpl. split; discriminate.
  - pose proof (_verify_dict_keys_subset
                  (keys (List.filter (fun ks => is_required (snd ks)) specs)) d) as Hv.
    rewrite required_present, Hreq in Hv. simpl in Hv.
    split; [| discriminate]. intros H. injection H as H. rewrite H in Hv. discriminate.
Qed.

Lemma validate_dict_state (d specs d' : dict) :
  unique (keys specs) = true ->
  validate_dict callables validators (PDict d) (PDict specs) = (PDict d', Ok None) ->
  forall key v, lookup d key = Some v ->
    exists x, lookup d' key = Some x /\
      match lookup specs key with
      | Some key_validator => value_after callables validators key_validator v
      | None => Some v
      end = Some x.
Proof.
  intros Hu Hrun key v Hv.
  destruct specs as [| s0 specs].
  { simpl in Hrun. injection Hrun as <-. exists v. split; [exact Hv | reflexivity]. }
  unfold validate_dict in Hrun.
  change (negb (truthy (PDict (s0 :: specs)))) with false in Hrun. cbv iota in Hrun.
  destruct (required_keys (s0 :: specs)) as [req | e]; [| discriminate].
  match type of Hrun with context [msg_truthy ?m] => set (missing := m) in * end.
  destruct (msg_truthy missing) eqn:Hm.
  { injection Hrun as _ Hmiss. rewrite Hmiss in Hm. discriminate. }
  pose proof (unexpected_keys_none d (s0 :: specs)) as Hun.
  destruct (unexpected_keys d (s0 :: specs)) as [| u us]; [| discriminate].
  destruct (validate_items callables validators (present_items (s0 :: specs) d) d)
    as [d1 r] eqn:Hitems.
  injection Hrun as -> ->.
  destruct (validate_items_state callables validators _ d d'
              (present_items_unique d _ Hu)
              (fun k => present_items_present d _ k) Hitems key v Hv) as [x [Hx Hafter]].
  exists x. split; [exact Hx |].
  rewrite present_items_lookup in Hafter by (apply contains_lookup; eauto).
  exact Hafter.
Qed.

(** A payload of one key under a schema of that key. *)
Lemma validate_dict_one_key (key : string) (kv : dict) (v : pyval) :
  validate_dict callables validators (PDict [(key, v)]) (PDict [(key, PDict kv)]) =
    match converted_value callables kv v with
    | Raise e => (PDict [(key, v)], Raise e)
    | Ok v' =>
        (PDict [(key, fst (resolved_check validators kv v'))],
         match snd (resolved_check validators kv v') with
         | Ok m => if msg_truthy m then Ok m else Ok None
         | Raise e => Raise e
         end)
    end.
Proof.
  assert (Hl : lookup [(key, v)] key = Some v)
    by (simpl; rewrite String.eqb_refl; reflexivity).
  assert (Hc : contains [(key, v)] key = true) by (unfold contains; rewrite Hl; reflexivity).
  assert (Hreq : forallb (fun ks => implb (is_required (snd ks))
                                      (contains [(key, v)] (fst ks)))
                   [(key, PDict kv)] = true).
  { cbn [forallb fst snd]. rewrite Hc, implb_true_r. reflexivity. }
  assert (Hun : unexpected_keys [(key, v)] [(key, PDict kv)] = []).
  { unfold unexpected_keys, contains. simpl. rewrite String.eqb_refl. reflexivity. }
  assert (Hpres : present_items [(key, PDict kv)] [(key, v)] = [(key, PDict kv)]).
  { unfold present_items. cbn [List.filter fst]. rewrite Hc. reflexivity. }
  rewrite validate_dict_steps by (discriminate || reflexivity).
  rewrite Hreq, Hun, Hpres. cbn [negb validate_items].
  rewrite (_validate_dict_item_present callables validators key kv _ v Hl).
  destruct (converted_value callables kv v) as [v' | e]; [| reflexivity].
  destruct (resolved_check validators kv v') as [x r].
  cbn [fst snd setitem]. rewrite String.eqb_refl.
  destruct r as [m | e]; [| reflexivity].
  destruct (msg_truthy m); reflexivity.
Qed.

(** When the call gets to a key, what it returns is what the loop returns
    from that key on, and the key still has the value it came with. *)
Lemma validate_dict_at_key (d specs : dict) (key : string) (key_validator v : pyval)
    (pre post : dict) :
  unique (keys specs) = true -> forallb is_dict (map snd specs) = true ->
  forallb (fun ks => implb (is_required (snd ks)) (contains d (fst ks))) specs = true ->
  forallb (contains specs) (keys d) = true ->
  present_items specs d = (pre ++ (key, key_validator) :: post)%list ->
  forallb (fun ks => key_passes callables validators (snd ks) (get d (fst ks))) pre = true ->
  lookup d key = Some v ->
  exists d1, lookup d1 key = Some v /\
    validate_dict callables validators (PDict d) (PDict specs) =
      (PDict (fst (validate_items callables validators ((key, key_validator) :: post) d1)),
       snd (validate_items callables validators ((key, key_validator) :: post) d1)).
Proof.
  intros Hu Hd Hreq Hdecl Hpres Hpre Hv.
  assert (Hne : specs <> []).
  { intros ->. destruct pre; discriminate Hpres. }
  pose proof (present_items_unique d specs Hu) as Hup.
  rewrite Hpres, keys_app in Hup. cbn [keys map fst] in Hup.
  apply unique_app in Hup as [Hupre Hnotin].
  assert (Hpp : all_present pre d).
  { intros k Hk. apply (present_items_present d specs). rewrite Hpres, keys_app.
    apply in_or_app. left. exact Hk. }
  rewrite validate_dict_steps by assumption.
  rewrite Hreq. cbn [negb].
  rewrite (proj2 (unexpected_keys_none d specs) Hdecl).
  rewrite Hpres, validate_items_app.
  pose proof (proj2 (validate_items_passes callables validators pre d Hupre Hpp) Hpre) as Hok.
  pose proof (validate_items_frame callables validators pre d key Hpp Hnotin) as Hframe.
  destruct (validate_items callables validators pre d) as [d1 r].
  cbn [fst snd] in *. subst r.
  exists d1. split; [rewrite Hframe; exact Hv | reflexivity].
Qed.

(** The key the call gets to does not pass: the call returns what the key's
    step returns, and the payload holds the value the step left. *)
Lemma validate_dict_stops_at_key (d specs : dict) (key : string) (kv : dict) (v : pyval) :
  reaches callables validators d specs key (PDict kv) ->
  lookup d key = Some v ->
  key_passes callables validators (PDict kv) v = false ->
  exists d',
    match converted_value callables kv v with
    | Raise e =>
        validate_dict callables validators (PDict d) (PDict specs) = (PDict d', Raise e) /\
        lookup d' key = Some v
    | Ok v' =>
        validate_dict callables validators (PDict d) (PDict specs)
          = (PDict d', snd (resolved_check validators kv v')) /\
        lookup d' key = Some (fst (resolved_check validators kv v'))
    end.
Proof.
  intros (Hu & Hd & Hreq & Hdecl & pre & post & Hpres & Hpre) Hv Hfail.
  destruct (validate_dict_at_key d specs key (PDict kv) v pre post
              Hu Hd Hreq Hdecl Hpres Hpre Hv) as [d1 [Hv1 Hrun]].
  rewrite Hrun. cbn [validate_items].
  rewrite (_validate_dict_item_present callables validators key kv d1 v Hv1).
  unfold key_passes in Hfail.
  destruct (converted_value callables kv v) as [v' | e].
  - destruct (resolved_check validators kv v') as [x r]. cbn [fst snd] in *.
    exists (setitem d1 key x).
    destruct r as [m | e].
    + destruct (msg_truthy m); [| discriminate Hfail].
      split; [reflexivity | apply lookup_setitem_eq].
    + split; [reflexivity | apply lookup_setitem_eq].
  - exists d1. split; [reflexivity | exact Hv1].
Qed.

(** Whether a schema admits a payload does not depend on which of two passing
    values a key holds. *)
Lemma schema_admits_setitem (d specs : dict) (key : string) (key_validator v1 v2 : pyval) :
  unique (keys specs) = true -> In (key, key_validator) specs ->
  key_passes callables validators key_validator v1 = true ->
  key_passes callables validators key_validator v2 = true ->
  schema_admits callables validators (setitem d key v1) specs
    = schema_admits callables validators (setitem d key v2) specs.
Proof.
  intros Hu Hin H1 H2. unfold schema_admits.
  rewrite (keys_setitem_value d key v1 v2).
  assert (Hreq : forall v,
             forallb (fun ks => implb (is_required (snd ks))
                                  (contains (setitem d key v) (fst ks))) specs
             = forallb (fun ks => implb (is_required (snd ks))
                                    (String.eqb key (fst ks) || contains d (fst ks))) specs).
  { intros v. apply forallb_ext_in. intros ks _. rewrite contains_setitem. reflexivity. }
  rewrite (Hreq v1), (Hreq v2).
  assert (Hpass : forall v, key_passes callables validators key_validator v = true ->
             forallb (fun ks => match lookup (setitem d key v) (fst ks) with
                                | Some x => key_passes callables validators (snd ks) x
                                | None => true
                                end) specs
             = forallb (fun ks => String.eqb key (fst ks)
                                  || match lookup d (fst ks) with
                                     | Some x => key_passes callables validators (snd ks) x
                                     | None => true
                                     end) specs).
  { intros v Hv. apply forallb_ext_in. intros [k s] Hks. cbn [fst snd].
    destruct (String.eqb_spec key k) as [<- | Hne]; cbn [orb].
    - rewrite lookup_setitem_eq.
      pose proof (In_lookup specs key s Hu Hks) as Hs.
      rewrite (In_lookup specs key key_validator Hu Hin) in Hs.
      injection Hs as <-. exact Hv.
    - rewrite lookup_setitem_ne by assumption. reflexivity. }
  rewrite (Hpass v1 H1), (Hpass v2 H2). reflexivity.
Qed.

End DictValidator.

(** *** Success of [validate_dict] *)

(** C1, as stated, at an empty schema and the payload [{'a': 1}]: the call
    succeeds although the key ['a'] is not declared by the schema.  The same
    holds when no schema is given. *)
Lemma validate_dict_empty_schema_accepts_undeclared_key :
  snd (validate_dict builtins (validators_at 1) (PDict [("a", PInt 1)]) (PDict [])) = Ok None /\
  snd (validate_dict builtins (validators_at 1) (PDict [("a", PInt 1)]) PNone) = Ok None /\
  contains [] "a" = false /\
  schema_admits builtins (validators_at 1) [("a", PInt 1)] [] = false.
Proof. repeat split. Qed.

(** C1 (amended): with no schema, or an empty one, [validate_dict] succeeds
    on every dict payload, whatever its keys, and leaves it as it is; under a
    schema that is not empty, [validate_dict] succeeds exactly when every
    required key is present, every key of the payload is declared, and every
    declared key that is present passes the validator its KeySpec resolves
    to, on the converted value. *)
Theorem validate_dict_succeeds_iff
    (callables : string -> pyval -> exc pyval) (validators : gmap string validator)
    (d : dict) :
  (forall key_specs,
      truthy key_specs = false ->
      validate_dict callables validators (PDict d) key_specs = (PDict d, Ok None)) /\
  (forall specs,
      specs <> [] -> unique (keys specs) = true -> forallb is_dict (map snd specs) = true ->
      (snd (validate_dict callables validators (PDict d) (PDict specs)) = Ok None <->
       schema_admits callables validators d specs = true)).
Proof.
  split.
  - intros key_specs Hf. unfold validate_dict. rewrite Hf. reflexivity.
  - intros specs. apply validate_dict_succeeds.
Qed.

Lemma validate_dict_succeeds_iff_witness :
  let specs := [("a", PDict [("required", PBool true); ("type:non_negative", PNone)]);
                ("b", PDict [("type:string", PInt 3)])] in
  let d := [("a", PInt 1)] in
  (truthy PNone = false /\ truthy (PDict []) = false /\
   specs <> [] /\ unique (keys specs) = true /\ forallb is_dict (map snd specs) = true) /\
  validate_dict builtins (validators_at 1) (PDict d) PNone = (PDict d, Ok None) /\
  validate_dict builtins (validators_at 1) (PDict d) (PDict []) = (PDict d, Ok None) /\
  (snd (validate_dict builtins (validators_at 1) (PDict d) (PDict specs)) = Ok None <->
   schema_admits builtins (validators_at 1) d specs = true).
Proof.
  intros specs d. split; [| split; [| split]].
  - repeat split. discriminate.
  - apply (proj1 (validate_dict_succeeds_iff builtins (validators_at 1) d)). reflexivity.
  - apply (proj1 (validate_dict_succeeds_iff builtins (validators_at 1) d)). reflexivity.
  - apply (proj2 (validate_dict_succeeds_iff builtins (validators_at 1) d) specs);
      [discriminate | reflexivity | reflexivity].
Defined.

(** The three calls of the spec, with the range validator on the key. *)
Example validate_dict_three_calls :
  let specs := PDict [("a", PDict [("required", PBool true);
                                   ("type:range", PList [PInt 0; PInt 10])])] in
  validate_dict builtins (validators_at 1) (PDict [("a", PInt 1)]) specs
    = (PDict [("a", PInt 1)], Ok None) /\
  validate_dict builtins (validators_at 1) (PDict [("b", PInt 1)]) specs
    = (PDict [("b", PInt 1)],
       Ok (Some ("Validation of dictionary's keys failed. "
                 ++ "Expected keys: {'a'} Provided keys: {'b'}"))) /\
  validate_dict builtins (validators_at 1) (PDict [("a", PInt 1); ("c", PInt 2)]) specs
    = (PDict [("a", PInt 1); ("c", PInt 2)], Ok (Some "Unexpected keys supplied: c")).
Proof. repeat split. Qed.

(** *** A tag that is not registered *)

(** C2, as stated, at the payload [{'a': 1}] with the tag [type:nope]: the
    call returns the message and raises nothing. *)
Lemma unregistered_tag_returns_a_message :
  validators_at 1 !! "type:nope" = None /\
  validate_dict builtins (validators_at 1) (PDict [("a", PInt 1)])
      (PDict [("a", PDict [("type:nope", PNone)])])
    = (PDict [("a", PInt 1)], Ok (Some "Validator 'type:nope' does not exist.")) /\
  (forall e,
      snd (validate_dict builtins (validators_at 1) (PDict [("a", PInt 1)])
             (PDict [("a", PDict [("type:nope", PNone)])])) <> Raise e).
Proof. repeat split. intros e. discriminate. Qed.

Lemma no_validator_truthy (k : string) : msg_truthy (Some (no_validator k)) = true.
Proof. reflexivity. Qed.

(** C2 (amended): when the first [type:] entry of a KeySpec names a tag that
    is not in the table, the step for a present key returns the message
    "Validator '<tag>' does not exist." after the conversion; on every payload
    and schema with which [validate_dict] gets to that key, whatever their
    other keys, [validate_dict] returns this message, raises nothing, and
    leaves the converted value under the key; so it does on a payload of that
    key alone. *)
Theorem unregistered_tag_is_reported
    (callables : string -> pyval -> exc pyval) (validators : gmap string validator)
    (key : string) (kv : dict) (k : string) (val_params : pyval) :
  find_type kv = Some (k, val_params) -> validators !! k = None ->
  (forall data v v',
      lookup data key = Some v -> converted_value callables kv v = Ok v' ->
      _validate_dict_item callables validators key (PDict kv) data
        = (setitem data key v', Ok (Some (no_validator k)))) /\
  (forall d specs v v',
      reaches callables validators d specs key (PDict kv) ->
      lookup d key = Some v -> converted_value callables kv v = Ok v' ->
      exists d',
        validate_dict callables validators (PDict d) (PDict specs)
          = (PDict d', Ok (Some (no_validator k))) /\
        lookup d' key = Some v') /\
  (forall v v',
      converted_value callables kv v = Ok v' ->
      validate_dict callables validators (PDict [(key, v)]) (PDict [(key, PDict kv)])
        = (PDict [(key, v')], Ok (Some (no_validator k)))).
Proof.
  intros Hf Hk.
  assert (Hchk : forall x, resolved_check validators kv x = (x, Ok (Some (no_validator k)))).
  { intros x. unfold resolved_check. rewrite Hf, Hk. reflexivity. }
  split; [| split].
  - intros data v v' Hv Hc.
    rewrite (_validate_dict_item_present _ _ _ _ _ v Hv), Hc, Hchk. reflexivity.
  - intros d specs v v' Hreach Hv Hc.
    assert (Hfail : key_passes callables validators (PDict kv) v = false).
    { unfold key_passes. rewrite Hc, Hchk. reflexivity. }
    destruct (validate_dict_stops_at_key callables validators d specs key kv v
                Hreach Hv Hfail) as [d' Hd'].
    rewrite Hc, Hchk in Hd'. exists d'. exact Hd'.
  - intros v v' Hc. rewrite validate_dict_one_key, Hc, Hchk. reflexivity.
Qed.

Lemma unregistered_tag_is_reported_witness :
  let kv := [("convert_to", PFun "int"); ("type:nope", PNone)] in
  let specs := [("a", PDict [("type:string", PNone)]); ("b", PDict kv);
                ("c", PDict [("required", PBool false); ("type:non_negative", PNone)])] in
  let d := [("c", PInt (-1)); ("b", PStr "7"); ("a", PStr "x")] in
  (find_type kv = Some ("type:nope", PNone) /\
   validators_at 1 !! "type:nope" = None /\
   reaches builtins (validators_at 1) d specs "b" (PDict kv) /\
   lookup d "b" = Some (PStr "7") /\
   converted_value builtins kv (PStr "7") = Ok (PInt 7)) /\
  exists d',
    validate_dict builtins (validators_at 1) (PDict d) (PDict specs)
      = (PDict d', Ok (Some (no_validator "type:nope"))) /\
    lookup d' "b" = Some (PInt 7).
Proof.
  intros kv specs d.
  assert (Hreach : reaches builtins (validators_at 1) d specs "b" (PDict kv)).
  { unfold reaches. split; [reflexivity |]. split; [reflexivity |].
    split; [reflexivity |]. split; [reflexivity |].
    exists [("a", PDict [("type:string", PNone)])],
           [("c", PDict [("required", PBool false); ("type:non_negative", PNone)])].
    split; reflexivity. }
  split.
  - split; [reflexivity |]. split; [reflexivity |]. split; [exact Hreach |].
    split; reflexivity.
  - apply (proj1 (proj2 (unregistered_tag_is_reported builtins (validators_at 1) "b"
                           kv "type:nope" PNone eq_refl eq_refl))
             d specs (PStr "7") (PInt 7) Hreach); reflexivity.
Defined.

(** *** A KeySpec without a [type:] entry *)

(** C10, as stated, at the payload [{'a': 'abc'}]: the KeySpec of ['a'] has
    no [type:] entry and declares [int] as its [convert_to]; the call does
    not accept the value, it raises the [ValueError] of [int('abc')]. *)
Lemma untyped_key_conversion_raises :
  find_type [("convert_to", PFun "int")] = None /\
  validate_dict builtins (validators_at 1) (PDict [("a", PStr "abc")])
      (PDict [("a", PDict [("convert_to", PFun "int")])])
    = (PDict [("a", PStr "abc")], Raise ValueError).
Proof. split; reflexivity. Qed.

(** C10 (amended): a KeySpec without an entry whose name starts with [type:]
    gets no validation: its step only converts.  Such a key passes exactly on
    the values on which its [convert_to] returns, on every value when it
    declares none; which of these values the key holds does not change
    whether [validate_dict] succeeds; and when [validate_dict] gets to the
    key with a value on which [convert_to] raises, it raises the same.  With
    entries, the first one whose name starts with [type:] decides the
    validator and its parameter, whatever follows it. *)
Theorem untyped_key_is_not_validated
    (callables : string -> pyval -> exc pyval) (validators : gmap string validator)
    (key : string) (kv : dict) :
  find_type kv = None ->
  (forall k v, In (k, v) kv -> String.prefix "type:" k = false) /\
  (forall data,
      _validate_dict_item callables validators key (PDict kv) data =
        match convert callables key kv data with
        | Ok data1 => (data1, Ok None)
        | Raise e => (data, Raise e)
        end) /\
  (forall v,
      key_passes callables validators (PDict kv) v = true <->
      exists v', converted_value callables kv v = Ok v') /\
  (truthy (get kv "convert_to") = false ->
   forall v, key_passes callables validators (PDict kv) v = true) /\
  (forall d specs v1 v2 v1' v2',
      unique (keys specs) = true -> forallb is_dict (map snd specs) = true ->
      In (key, PDict kv) specs ->
      converted_value callables kv v1 = Ok v1' ->
      converted_value callables kv v2 = Ok v2' ->
      (snd (validate_dict callables validators (PDict (setitem d key v1)) (PDict specs))
         = Ok None <->
       snd (validate_dict callables validators (PDict (setitem d key v2)) (PDict specs))
         = Ok None)) /\
  (forall d specs v e,
      reaches callables validators d specs key (PDict kv) ->
      lookup d key = Some v -> converted_value callables kv v = Raise e ->
      exists d',
        validate_dict callables validators (PDict d) (PDict specs) = (PDict d', Raise e) /\
        lookup d' key = Some v) /\
  (forall v v',
      converted_value callables kv v = Ok v' ->
      validate_dict callables validators (PDict [(key, v)]) (PDict [(key, PDict kv)])
        = (PDict [(key, v')], Ok None)) /\
  (forall k val_params post data v v',
      String.prefix "type:" k = true ->
      lookup data key = Some v ->
      converted_value callables (kv ++ (k, val_params) :: post)%list v = Ok v' ->
      find_type (kv ++ (k, val_params) :: post)%list = Some (k, val_params) /\
      _validate_dict_item callables validators key
          (PDict (kv ++ (k, val_params) :: post)%list) data =
        match validators !! k with
        | Some val_func =>
            (setitem data key (fst (v_call val_func v' val_params)),
             snd (v_call val_func v' val_params))
        | None => (setitem data key v', Ok (Some (no_validator k)))
        end).
Proof.
  intros Hf.
  assert (Hpass : forall v,
             key_passes callables validators (PDict kv) v = true <->
             exists v', converted_value callables kv v = Ok v').
  { intros v. unfold key_passes, resolved_check. rewrite Hf.
    destruct (converted_value callables kv v) as [v' | e]; simpl.
    - split; [eauto | reflexivity].
    - split; [discriminate | intros [v' H]; discriminate H]. }
  split; [apply find_type_none; exact Hf |].
  split; [| split; [exact Hpass |]]; [| split; [| split; [| split; [| split]]]].
  - intros data. unfold _validate_dict_item.
    destruct (convert callables key kv data); [rewrite Hf |]; reflexivity.
  - intros Hno v. apply Hpass. exists v. unfold converted_value. rewrite Hno. reflexivity.
  - intros d specs v1 v2 v1' v2' Hu Hd Hin H1 H2.
    assert (Hne : specs <> []) by (intros ->; contradiction).
    rewrite !validate_dict_succeeds by assumption.
    rewrite (schema_admits_setitem callables validators d specs key (PDict kv) v1 v2 Hu Hin).
    + reflexivity.
    + apply Hpass. exists v1'. exact H1.
    + apply Hpass. exists v2'. exact H2.
  - intros d specs v e Hreach Hv Hc.
    assert (Hfail : key_passes callables validators (PDict kv) v = false).
    { unfold key_passes. rewrite Hc. reflexivity. }
    destruct (validate_dict_stops_at_key callables validators d specs key kv v
                Hreach Hv Hfail) as [d' Hd'].
    rewrite Hc in Hd'. exists d'. exact Hd'.
  - intros v v' Hc. rewrite validate_dict_one_key, Hc.
    unfold resolved_check. rewrite Hf. reflexivity.
  - intros k val_params post data v v' Hk Hv Hc.
    pose proof (find_type_first kv post k val_params Hf Hk) as Hfirst.
    split; [exact Hfirst |].
    rewrite (_validate_dict_item_present _ _ _ _ _ v Hv), Hc.
    unfold resolved_check. rewrite Hfirst.
    destruct (validators !! k); reflexivity.
Qed.

Lemma untyped_key_is_not_validated_witness :
  let kv := [("required", PBool true); ("convert_to", PFun "int")] in
  let specs := [("a", PDict kv); ("b", PDict [("type:string", PNone)])] in
  let d := [("b", PStr "x"); ("a", PStr "abc")] in
  (find_type kv = None /\
   reaches builtins (validators_at 1) d specs "a" (PDict kv) /\
   lookup d "a" = Some (PStr "abc") /\
   converted_value builtins kv (PStr "abc") = Raise ValueError /\
   converted_value builtins kv (PStr "12") = Ok (PInt 12)) /\
  (exists d',
     validate_dict builtins (validators_at 1) (PDict d) (PDict specs)
       = (PDict d', Raise ValueError) /\
     lookup d' "a" = Some (PStr "abc")) /\
  validate_dict builtins (validators_at 1) (PDict [("a", PStr "12")])
      (PDict [("a", PDict kv)])
    = (PDict [("a", PInt 12)], Ok None).
Proof.
  intros kv specs d.
  assert (Hreach : reaches builtins (validators_at 1) d specs "a" (PDict kv)).
  { unfold reaches. split; [reflexivity |]. split; [reflexivity |].
    split; [reflexivity |]. split; [reflexivity |].
    exists [], [("b", PDict [("type:string", PNone)])]. split; reflexivity. }
  pose proof (untyped_key_is_not_validated builtins (validators_at 1) "a" kv eq_refl)
    as (_ & _ & _ & _ & _ & Hraise & Hone & _).
  split.
  - split; [reflexivity |]. split; [exact Hreach |]. repeat split.
  - split.
    + apply (Hraise d specs (PStr "abc") ValueError Hreach); reflexivity.
    + apply Hone. reflexivity.
Defined.

(** *** Conversion *)

Lemma resolved_check_read_only (validators : gmap string validator) (kv : dict) (v : pyval) :
  read_only validators -> fst (resolved_check validators kv v) = v.
Proof.
  intros Hro. unfold resolved_check.
  destruct (find_type kv) as [[k val_params] |]; [| reflexivity].
  destruct (validators !! k) as [val_func |] eqn:Hk; [| reflexivity].
  apply (Hro k). exact Hk.
Qed.

Lemma leaf_validators_read_only : read_only leaf_validators.
Proof.
  intros k val_func x val_params Hk.
  unfold leaf_validators in Hk. simpl in Hk.
  repeat (apply lookup_insert_Some in Hk as [[_ <-] | [_ Hk]]; [reflexivity |]).
  rewrite lookup_empty in Hk. discriminate.
Qed.

(** C6, as stated, at the payload [{'a': {'b': '5'}}]: the key ['a'] declares
    no [convert_to], its validator is [type:dict] with a nested KeySpec that
    converts ['b'], and after the successful call the value under ['a'] is
    [{'b': 5}]. *)
Lemma nested_conversion_changes_key_without_convert_to :
  let spec_a := [("type:dict",
                  PDict [("b", PDict [("convert_to", PFun "int");
                                      ("type:non_negative", PNone)])])] in
  get spec_a "convert_to" = PNone /\
  validate_dict builtins (validators_at 1) (PDict [("a", PDict [("b", PStr "5")])])
      (PDict [("a", PDict spec_a)])
    = (PDict [("a", PDict [("b", PInt 5)])], Ok None) /\
  lookup [("a", PDict [("b", PInt 5)])] "a" <> lookup [("a", PDict [("b", PStr "5")])] "a".
Proof. repeat split. discriminate. Qed.

(** The converted value stays in the payload when its validator refuses it. *)
Example conversion_persists_on_failure :
  validate_dict builtins (validators_at 1) (PDict [("a", PStr "-5")])
      (PDict [("a", PDict [("convert_to", PFun "int"); ("type:non_negative", PNone)])])
    = (PDict [("a", PInt (-5))], Ok (Some "'-5' should be non-negative")).
Proof. reflexivity. Qed.

(** C6 (amended): for a key that is present, a declared [convert_to] replaces
    the value before the key's validator runs on it, whatever the validator
    then returns; when [validate_dict] gets to such a key and the key's
    validator refuses the converted value, or raises on it, the call returns
    that refusal and the payload holds the converted value as the validator
    left it, the converted value itself when the validators of the table only
    read their argument; after a successful [validate_dict] the value under a
    key is the converted value (the original one without [convert_to]) as the
    key's validator left it; and when the validators of the table only read
    their argument, it is the converted value itself, and the original one
    for a key without [convert_to]. *)
Theorem validate_dict_conversion_effect
    (callables : string -> pyval -> exc pyval) (validators : gmap string validator) :
  (forall key kv data v v',
      lookup data key = Some v ->
      truthy (get kv "convert_to") = true ->
      call callables (get kv "convert_to") v = Ok v' ->
      _validate_dict_item callables validators key (PDict kv) data
        = (setitem data key (fst (resolved_check validators kv v')),
           snd (resolved_check validators kv v'))) /\
  (forall d specs key kv v v',
      reaches callables validators d specs key (PDict kv) ->
      lookup d key = Some v ->
      truthy (get kv "convert_to") = true ->
      call callables (get kv "convert_to") v = Ok v' ->
      key_passes callables validators (PDict kv) v = false ->
      exists d',
        validate_dict callables validators (PDict d) (PDict specs)
          = (PDict d', snd (resolved_check validators kv v')) /\
        snd (resolved_check validators kv v') <> Ok None /\
        lookup d' key = Some (fst (resolved_check validators kv v')) /\
        (read_only validators -> lookup d' key = Some v')) /\
  (forall d specs d',
      unique (keys specs) = true ->
      validate_dict callables validators (PDict d) (PDict specs) = (PDict d', Ok None) ->
      forall key v, lookup d key = Some v ->
        lookup d' key =
          match lookup specs key with
          | Some key_validator => value_after callables validators key_validator v
          | None => Some v
          end) /\
  (read_only validators ->
   forall d specs d',
      unique (keys specs) = true ->
      validate_dict callables validators (PDict d) (PDict specs) = (PDict d', Ok None) ->
      forall key v kv, lookup d key = Some v -> lookup specs key = Some (PDict kv) ->
        if truthy (get kv "convert_to")
        then exists v', call callables (get kv "convert_to") v = Ok v' /\
                        lookup d' key = Some v'
        else lookup d' key = Some v).
Proof.
  split; [| split; [| split]].
  - intros key kv data v v' Hv Ht Hc.
    rewrite (_validate_dict_item_present _ _ _ _ _ v Hv).
    unfold converted_value. rewrite Ht, Hc. reflexivity.
  - intros d specs key kv v v' Hreach Hv Ht Hc Hfail.
    assert (Hconv : converted_value callables kv v = Ok v')
      by (unfold converted_value; rewrite Ht; exact Hc).
    destruct (validate_dict_stops_at_key callables validators d specs key kv v
                Hreach Hv Hfail) as [d' Hd'].
    rewrite Hconv in Hd'. destruct Hd' as [Hrun Hkey].
    exists d'. split; [exact Hrun |]. split; [| split; [exact Hkey |]].
    + unfold key_passes in Hfail. rewrite Hconv in Hfail.
      intros Hnone. rewrite Hnone in Hfail. discriminate Hfail.
    + intros Hro. rewrite Hkey, resolved_check_read_only by assumption. reflexivity.
  - intros d specs d' Hu Hrun key v Hv.
    destruct (validate_dict_state callables validators d specs d' Hu Hrun key v Hv)
      as [x [Hx Hafter]].
    rewrite Hx, Hafter. reflexivity.
  - intros Hro d specs d' Hu Hrun key v kv Hv Hspec.
    destruct (validate_dict_state callables validators d specs d' Hu Hrun key v Hv)
      as [x [Hx Hafter]].
    rewrite Hspec in Hafter. unfold value_after, converted_value in Hafter.
    destruct (truthy (get kv "convert_to")).
    + destruct (call callables (get kv "convert_to") v) as [v' | e]; [| discriminate].
      exists v'. split; [reflexivity |].
      rewrite resolved_check_read_only in Hafter by assumption. congruence.
    + rewrite resolved_check_read_only in Hafter by assumption. congruence.
Qed.

Lemma validate_dict_conversion_effect_witness :
  let kv := [("convert_to", PFun "int"); ("type:non_negative", PNone)] in
  let specs := [("b", PDict [("type:string", PNone)]); ("a", PDict kv);
                ("c", PDict [("type:string", PNone)])] in
  let d := [("b", PStr "x"); ("a", PStr "5")] in
  let d' := [("b", PStr "x"); ("a", PInt 5)] in
  let bad := [("c", PInt 0); ("a", PStr "-5"); ("b", PStr "x")] in
  (unique (keys specs) = true /\
   validate_dict builtins leaf_validators (PDict d) (PDict specs) = (PDict d', Ok None) /\
   reaches builtins leaf_validators bad specs "a" (PDict kv) /\
   key_passes builtins leaf_validators (PDict kv) (PStr "-5") = false) /\
  (exists v', call builtins (PFun "int") (PStr "5") = Ok v' /\ lookup d' "a" = Some v') /\
  lookup d' "b" = Some (PStr "x") /\
  (exists bad',
     validate_dict builtins leaf_validators (PDict bad) (PDict specs)
       = (PDict bad', Ok (Some "'-5' should be non-negative")) /\
     lookup bad' "a" = Some (PInt (-5))).
Proof.
  intros kv specs d d' bad.
  assert (Hreach : reaches builtins leaf_validators bad specs "a" (PDict kv)).
  { unfold reaches. split; [reflexivity |]. split; [reflexivity |].
    split; [reflexivity |]. split; [reflexivity |].
    exists [("b", PDict [("type:string", PNone)])], [("c", PDict [("type:string", PNone)])].
    split; reflexivity. }
  pose proof (validate_dict_conversion_effect builtins leaf_validators)
    as (_ & Hfail & _ & Hread).
  split; [| split; [| split]].
  - split; [reflexivity |]. split; [reflexivity |]. split; [exact Hreach | reflexivity].
  - apply (Hread leaf_validators_read_only d specs d' eq_refl eq_refl "a" (PStr "5") kv
             eq_refl eq_refl).
  - apply (Hread leaf_validators_read_only d specs d' eq_refl eq_refl "b" (PStr "x")
             [("type:string", PNone)] eq_refl eq_refl).
  - destruct (Hfail bad specs "a" kv (PStr "-5") (PInt (-5)) Hreach eq_refl eq_refl
                eq_refl eq_refl) as [bad' [Hrun [_ [_ Hval]]]].
    exists bad'. split; [exact Hrun | exact (Hval leaf_validators_read_only)].
Defined.

(** * Further properties *)

(** ** Key sets *)

Lemma set_eq_spec (a b : list string) :
  set_eq a b = true <-> (forall x, In x a <-> In x b).
Proof.
  unfold set_eq. rewrite andb_true_iff, !issubset_spec. split.
  - intros [Hab Hba] x. split; auto.
  - intros H. split; intros x Hx; apply H; exact Hx.
Qed.

Lemma _verify_dict_keys_same_keys (expected_keys : list string) (d : dict) :
  _verify_dict_keys expected_keys (PDict d) true = None <->
  (forall k, In k expected_keys <-> In k (keys d)).
Proof.
  unfold _verify_dict_keys.
  destruct (set_eq (str_set expected_keys) (str_set (keys d))) eqn:Heq; simpl.
  - split; [intros _ | reflexivity].
    intros k. rewrite <- (str_set_In k expected_keys), <- (str_set_In k (keys d)).
    apply set_eq_spec. exact Heq.
  - split; [discriminate |]. intros H. exfalso.
    assert (Ht : set_eq (str_set expected_keys) (str_set (keys d)) = true).
    { apply set_eq_spec. intros k. rewrite !str_set_In. apply H. }
    congruence.
Qed.

(** X1: in strict mode a dict passes the key check exactly when its keys are
    the expected keys, as sets: order and repetition in [expected_keys] do not
    count. *)
Theorem _verify_dict_keys_strict (expected_keys : list string) (d : dict) :
  _verify_dict_keys expected_keys (PDict d) true = None <->
  (forall k, In k expected_keys <-> In k (keys d)).
Proof. apply _verify_dict_keys_same_keys. Qed.

(** X2: in the other mode a dict passes exactly when it has every expected
    key, whatever else it has; and a target that is no dict never passes, in
    either mode. *)
Theorem _verify_dict_keys_subset_mode (expected_keys : list string) :
  (forall d : dict,
      _verify_dict_keys expected_keys (PDict d) false = None <->
      (forall k, In k expected_keys -> In k (keys d))) /\
  (forall (target : pyval) (strict : bool),
      is_dict target = false ->
      msg_truthy (_verify_dict_keys expected_keys target strict) = true).
Proof.
  split.
  - intros d. pose proof (_verify_dict_keys_subset expected_keys d) as Hs.
    destruct (_verify_dict_keys expected_keys (PDict d) false) as [m |] eqn:Hv.
    + split; [discriminate |]. intros H. exfalso.
      assert (Hall : forallb (contains d) expected_keys = true).
      { apply forallb_forall. intros k Hk. apply contains_keys. auto. }
      rewrite Hall in Hs. simpl in Hs.
      unfold _verify_dict_keys in Hv.
      destruct (negb (issubset (str_set expected_keys) (str_set (keys d))));
        [| discriminate].
      injection Hv as <-. discriminate.
    + split; [| reflexivity]. intros _ k Hk.
      simpl in Hs. symmetry in Hs. apply negb_false_iff in Hs.
      rewrite forallb_forall in Hs. apply contains_keys. auto.
  - intros target strict Hd. destruct target; try discriminate; reflexivity.
Qed.

Lemma _verify_dict_keys_subset_mode_witness :
  is_dict (PList [PStr "start"; PStr "end"]) = false /\
  msg_truthy (_verify_dict_keys ["start"; "end"] (PList [PStr "start"; PStr "end"]) true)
    = true.
Proof.
  split; [reflexivity |].
  apply (proj2 (_verify_dict_keys_subset_mode ["start"; "end"])). reflexivity.
Defined.

(** ** Strings *)

(** X3: [validate_string] passes exactly the strings, or with an integer
    [max_len] the strings of at most that length; data that is no string gets
    the message whatever [max_len] is, so a [max_len] that cannot be compared
    raises for strings only. *)
Theorem validate_string_accepts (data : pyval) :
  (validate_string data PNone = Ok None <-> exists s, data = PStr s) /\
  (forall n : Z,
      validate_string data (PInt n) = Ok None <->
      exists s, data = PStr s /\ Z.of_nat (String.length s) <= n) /\
  (forall max_len,
      (forall s, data <> PStr s) ->
      validate_string data max_len
        = Ok (Some ("'" ++ py_str data ++ "' is not a valid string"))).
Proof.
  split; [| split].
  - destruct data; simpl; split; try discriminate; eauto;
      intros [s0 H]; discriminate.
  - intros n. destruct data as [| | | s | | |]; simpl;
      try (split; [discriminate | intros [s0 [H _]]; discriminate]).
    destruct (Z.ltb_spec n (Z.of_nat (String.length s))); split.
    + discriminate.
    + intros [s0 [Hs Hle]]. injection Hs as <-. lia.
    + intros _. exists s. split; [reflexivity | lia].
    + reflexivity.
  - intros max_len Hns. destruct data as [| | | s | | |]; try reflexivity.
    destruct (Hns s eq_refl).
Qed.

Lemma validate_string_accepts_witness :
  (forall s, PInt 7 <> PStr s) /\
  validate_string (PInt 7) (PStr "ten") = Ok (Some "'7' is not a valid string").
Proof.
  split; [discriminate |].
  apply (proj2 (proj2 (validate_string_accepts (PInt 7)))). discriminate.
Defined.

(** ** Lists of unique strings *)

Lemma atom_eq_strings (x : string) (l : list string) :
  existsb (atom_eq (PStr x)) (map PStr l) = str_mem x l.
Proof. induction l as [| y l IH]; simpl; [| rewrite IH]; reflexivity. Qed.

Lemma has_repeat_strings (ss : list string) : has_repeat (map PStr ss) = negb (unique ss).
Proof.
  induction ss as [| x ss IH]; simpl; [reflexivity |].
  rewrite atom_eq_strings, IH, negb_andb, negb_involutive. reflexivity.
Qed.

Lemma validate_string_falsy (data max_len : pyval) (m : msg) :
  validate_string data max_len = Ok m -> msg_truthy m = false -> m = None.
Proof.
  unfold validate_string, len_gt, bind.
  destruct data; destruct max_len as [| b0 | | | | |]; try destruct b0;
    repeat match goal with
           | |- context [if ?c then _ else _] => destruct c
           end;
    intros H Hf; try discriminate; injection H as <-; (reflexivity || discriminate).
Qed.

Lemma first_failure_strings (max_len : pyval) (ok : string -> bool) (ss : list string) :
  (forall s, validate_string (PStr s) max_len = Ok None <-> ok s = true) ->
  (first_failure (fun item => validate_string item max_len) (map PStr ss) = Ok None <->
   forallb ok ss = true).
Proof.
  intros Hok. rewrite first_failure_passes, forallb_forall, List.Forall_forall. split.
  - intros H s Hs. apply Hok.
    destruct (H (PStr s) (in_map PStr ss s Hs)) as [m [Hm Hf]].
    rewrite Hm. f_equal. exact (validate_string_falsy _ _ _ Hm Hf).
  - intros H x Hx. apply in_map_iff in Hx as [s [<- Hs]].
    exists None. split; [| reflexivity]. apply Hok. apply H. exact Hs.
Qed.

(** X4: on a list of strings, [validate_list_of_unique_strings] passes exactly
    when no string occurs twice and, with an integer [max_len], every string
    has at most that length. *)
Theorem validate_list_of_unique_strings_accepts (ss : list string) :
  (validate_list_of_unique_strings (PList (map PStr ss)) PNone = Ok None <->
   unique ss = true) /\
  (forall n : Z,
      validate_list_of_unique_strings (PList (map PStr ss)) (PInt n) = Ok None <->
      unique ss = true /\ forallb (fun s => Z.of_nat (String.length s) <=? n) ss = true).
Proof.
  unfold validate_list_of_unique_strings. split; [| intros n];
    rewrite list_of_items_strings, has_repeat_strings;
    destruct (unique ss); simpl.
  - rewrite (first_failure_strings PNone (fun _ => true)).
    + split; [reflexivity |]. intros _. apply forallb_forall. reflexivity.
    + intros s. split; reflexivity.
  - split; discriminate.
  - rewrite (first_failure_strings (PInt n) (fun s => Z.of_nat (String.length s) <=? n)).
    + split; [auto | intros [_ H]; exact H].
    + intros s. simpl.
      destruct (Z.ltb_spec n (Z.of_nat (String.length s)));
        destruct (Z.leb_spec (Z.of_nat (String.length s)) n);
        split; (reflexivity || discriminate || lia).
  - split; [discriminate | intros [H _]; discriminate].
Qed.

(** X5: the items are validated in list order and the first message ends the
    loop: the items after it are not validated, so an item on which the
    validator would raise does no harm there. *)
Theorem first_failure_stops (item_validator : pyval -> exc msg)
    (pre post : list pyval) (x : pyval) (m : msg) :
  first_failure item_validator pre = Ok None ->
  item_validator x = Ok m -> msg_truthy m = true ->
  first_failure item_validator (pre ++ x :: post)%list = Ok m.
Proof.
  intros Hpre Hx Hm. induction pre as [| y pre IH]; simpl in *.
  - rewrite Hx, Hm. reflexivity.
  - destruct (item_validator y) as [my | e]; [| discriminate].
    destruct (msg_truthy my) eqn:Hy.
    + injection Hpre as ->. discriminate.
    + apply IH. exact Hpre.
Qed.

Lemma first_failure_stops_witness :
  first_failure (fun item => validate_range item (PList [PInt 0; PInt 9]))
      [PInt 1; PInt 12; PNone; PList []]
    = Ok (Some "'12' is too large - must be no larger than '9'").
Proof.
  apply (first_failure_stops (fun item => validate_range item (PList [PInt 0; PInt 9]))
           [PInt 1] [PNone; PList []] (PInt 12)); reflexivity.
Defined.

(** ** Numbers *)

Lemma validate_non_negative_total (data valid_values : pyval) :
  exists m, validate_non_negative data valid_values = Ok m.
Proof.
  unfold validate_non_negative. destruct (int data) as [z |]; [| eauto].
  destruct (z <? 0); eauto.
Qed.



(** What [int()] reads: blanks of every kind around the digits, among them
    the no-break space and NEL, and single underscores between digits. *)
Example int_reads_text :
  int (PStr (String (ascii_of_nat 160) "12")) = Some 12 /\
  int (PStr (String "1" (String (ascii_of_nat 133) EmptyString))) = Some 1 /\
  int (PStr " -7 ") = Some (-7) /\
  int (PStr "1_000") = Some 1000 /\
  int (PStr "1__0") = None /\
  int (PStr "_1") = None /\
  int (PStr "1_") = None /\
  int (PStr "- 7") = None /\
  int (PStr "1 2") = None /\
  int (PStr "") = None.
Proof. repeat split. Qed.

(** The whitespace that [validate_no_whitespace] looks for is more than the
    space: the separator US and the no-break space are found too. *)
Example validate_no_whitespace_finds :
  has_space (String "a" (String (ascii_of_nat 31) "b")) = true /\
  has_space (String "a" (String (ascii_of_nat 160) "b")) = true /\
  has_space (String "a" (String (ascii_of_nat 133) "b")) = true /\
  has_space "a_b" = false.
Proof. repeat split. Qed.

(** ** Port ranges *)

Section PortRangeFacts.

Variable valid_port : string -> bool.

Lemma check_ports_truthy (ports : list string) (m : string) :
  check_ports valid_port ports = Some m -> m <> "".
Proof.
  induction ports as [| p ports IH]; simpl; [discriminate |].
  destruct (String.length p =? 0)%nat; [intros H; injection H as <-; discriminate |].
  destruct (valid_port p); simpl; [exact IH |].
  intros H. injection H as <-. discriminate.
Qed.

Lemma split_length (sep : ascii) (s : string) :
  length (split sep s) = S (count_char sep s).
Proof.
  induction s as [| c s IH]; simpl; [reflexivity |].
  destruct (Ascii.eqb c sep); simpl.
  - rewrite IH. reflexivity.
  - destruct (split sep s) as [| p ps]; simpl in *; [discriminate | exact IH].
Qed.

Lemma split_no_sep (sep : ascii) (s : string) :
  count_char sep s = O -> split sep s = [s].
Proof.
  induction s as [| c s IH]; simpl; [reflexivity |].
  destruct (Ascii.eqb c sep); simpl; [discriminate |].
  intros H. rewrite IH by exact H. reflexivity.
Qed.

End PortRangeFacts.

(** X8: [validate_port_range_or_none] never raises: every data value, string
    or not, gets [None] or a message, whatever the port test is. *)
Theorem validate_port_range_or_none_returns (valid_port : string -> bool)
    (data valid_values : pyval) :
  exists m, validate_port_range_or_none valid_port data valid_values = Ok m.
Proof.
  unfold validate_port_range_or_none.
  destruct data as [| b | z | s | l | d | f]; simpl; eauto.
  destruct (2 <? length (split ":" s))%nat; eauto.
  destruct (check_ports valid_port (split ":" s)); eauto.
  destruct (split ":" s) as [| p0 [| p1 ps]]; eauto.
  destruct (str_gt p0 p1); eauto.
Qed.

(** X9: a text without a colon is a port range exactly when it is not empty
    and the port test accepts it. *)
Theorem validate_port_range_single (valid_port : string -> bool) (s : string) :
  count_char ":" s = O ->
  (validate_port_range_or_none valid_port (PStr s) PNone = Ok None <->
   s <> "" /\ valid_port s = true).
Proof.
  intros Hc. unfold validate_port_range_or_none. simpl.
  rewrite (split_no_sep ":" s Hc). simpl.
  destruct s as [| c s]; simpl.
  - split; [discriminate | intros [H _]; contradiction].
  - destruct (valid_port (String c s)); simpl; split;
      try discriminate; try reflexivity.
    + intros _. split; [discriminate | reflexivity].
    + intros [_ H]. discriminate.
Qed.

Lemma validate_port_range_single_witness :
  count_char ":" "8080" = O /\
  (validate_port_range_or_none is_valid_port (PStr "8080") PNone = Ok None <->
   "8080" <> "" /\ is_valid_port "8080" = true).
Proof.
  split; [reflexivity |].
  apply (validate_port_range_single is_valid_port "8080"). reflexivity.
Defined.

(** X10: a text with two or more colons is refused with the "two integers"
    message before any port is looked at, and a range with an empty side is
    never accepted. *)
Theorem validate_port_range_malformed (valid_port : string -> bool) (s : string) :
  ((2 <= count_char ":" s)%nat ->
   validate_port_range_or_none valid_port (PStr s) PNone
     = Ok (Some "Port range must be two integers separated by a colon.")) /\
  (count_char ":" s = O ->
   validate_port_range_or_none valid_port (PStr (s ++ ":")) PNone <> Ok None /\
   validate_port_range_or_none valid_port (PStr (":" ++ s)) PNone <> Ok None).
Proof.
  split.
  - intros Hc. unfold validate_port_range_or_none. simpl.
    rewrite split_length.
    destruct (Nat.ltb_spec 2 (S (count_char ":" s))); [reflexivity | lia].
  - intros Hc.
    assert (Hno : no_colon s) by (apply split_no_sep; exact Hc).
    split.
    + unfold validate_port_range_or_none. simpl.
      replace (s ++ ":") with (s ++ ":" ++ "") by reflexivity.
      rewrite (split_colon s "" Hno). simpl.
      destruct (String.length s =? 0)%nat; [discriminate |].
      destruct (valid_port s); simpl; discriminate.
    + unfold validate_port_range_or_none. simpl bind. cbv iota beta.
      match goal with |- context [if ?c then _ else _] => destruct c end;
        intros H; discriminate H.
Qed.

Lemma validate_port_range_malformed_witness :
  (2 <= count_char ":" "1:2:3")%nat /\
  validate_port_range_or_none is_valid_port (PStr "1:2:3") PNone
    = Ok (Some "Port range must be two integers separated by a colon.").
Proof.
  split; [simpl; lia |].
  apply (proj1 (validate_port_range_malformed is_valid_port "1:2:3")). simpl. lia.
Defined.

(** ** The table of validators *)

(** X11: after [add_validator] has returned, [get_validator] finds under the
    tag a validator with the source text of the one given, under the bare
    name as under the prefixed one, and every other tag resolves as before. *)
Theorem add_validator_then_get (validators validators' : gmap string validator)
    (tag : string) (v : validator) :
  add_validator tag v validators = (validators', Ok tt) ->
  (exists bound,
      get_validator validators' tag None = Some bound /\
      get_validator validators' (_to_validation_type tag) None = Some bound /\
      v_source bound = v_source v) /\
  (forall tag' default,
      _to_validation_type tag' <> _to_validation_type tag ->
      get_validator validators' tag' default = get_validator validators tag' default).
Proof.
  unfold add_validator, get_validator. rewrite _to_validation_type_idem.
  destruct (validators !! _to_validation_type tag) as [bound |] eqn:Hb.
  - destruct (v_source v) as [source |] eqn:Hv; [| discriminate].
    destruct (v_source bound) as [bound_source |] eqn:Hbs; [| discriminate].
    destruct (String.eqb_spec source bound_source) as [Hs | Hs]; simpl;
      [| discriminate].
    intros H. injection H as <-. split.
    + exists bound. rewrite Hb. repeat split; congruence.
    + reflexivity.
  - intros H. injection H as <-. split.
    + exists v. rewrite lookup_insert_eq. auto.
    + intros tag' default Hne. rewrite lookup_insert_ne by congruence. reflexivity.
Qed.

Lemma add_validator_then_get_witness :
  let v := Validator (Ok "def validate_x(data, valid_values=None)") (reads (fun _ _ => Ok None)) in
  add_validator "x" v leaf_validators = (<["type:x" := v]> leaf_validators, Ok tt) /\
  get_validator (<["type:x" := v]> leaf_validators) "range" None
    = get_validator leaf_validators "range" None.
Proof.
  intros v. split; [reflexivity |].
  apply (proj2 (add_validator_then_get leaf_validators (<["type:x" := v]> leaf_validators)
                  "x" v eq_refl)).
  discriminate.
Defined.

(** X12: [add_validator] never rebinds a tag: whatever it is called with and
    whether it returns or raises, every validator of the table stays bound to
    its tag. *)
Theorem add_validator_keeps_bound (validators validators' : gmap string validator)
    (tag : string) (v : validator) (r : exc unit) (k : string) (bound : validator) :
  add_validator tag v validators = (validators', r) ->
  validators !! k = Some bound -> validators' !! k = Some bound.
Proof.
  unfold add_validator.
  destruct (validators !! _to_validation_type tag) as [b |] eqn:Hb.
  - destruct (v_source v); [destruct (v_source b); [destruct (negb _) |] |];
      intros H; injection H as <- _; auto.
  - intros H Hk. injection H as <- _.
    rewrite lookup_insert_ne; [exact Hk | congruence].
Qed.

Lemma add_validator_keeps_bound_witness :
  let v := Validator (Ok "def mine(data, valid_values=None)") (reads (fun _ _ => Ok None)) in
  exists bound,
    leaf_validators !! "type:string" = Some bound /\
    fst (add_validator "string" v leaf_validators) !! "type:string" = Some bound.
Proof.
  intros v. eexists. split; [reflexivity |].
  apply (add_validator_keeps_bound leaf_validators _ "string" v
           (snd (add_validator "string" v leaf_validators)) "type:string");
    reflexivity.
Defined.

(** ** The payload under [validate_dict] *)

Section PayloadFacts.

Variable callables : string -> pyval -> exc pyval.
Variable validators : gmap string validator.

Lemma keys_setitem (d : dict) (k : string) (v : pyval) :
  contains d k = true -> keys (setitem d k v) = keys d.
Proof.
  unfold contains. induction d as [| [k' v'] d IH]; simpl; [discriminate |].
  destruct (String.eqb_spec k' k) as [-> | Hk]; simpl; [reflexivity |].
  intros H. rewrite IH by exact H. reflexivity.
Qed.

Lemma _validate_dict_item_keys (key : string) (key_validator : pyval) (data : dict) :
  contains data key = true ->
  keys (fst (_validate_dict_item callables validators key key_validator data)) = keys data.
Proof.
  intros Hc. pose proof Hc as Hc'. apply contains_lookup in Hc' as [v Hv].
  destruct key_validator as [| | | | | kv |]; try reflexivity.
  rewrite (_validate_dict_item_present _ _ _ _ _ v Hv).
  destruct (converted_value callables kv v); simpl; [| reflexivity].
  apply keys_setitem. exact Hc.
Qed.

Lemma validate_items_keys (items : dict) : forall data,
  all_present items data ->
  keys (fst (validate_items callables validators items data)) = keys data.
Proof.
  induction items as [| [key key_validator] items IH]; intros data Hp; simpl;
    [reflexivity |].
  pose proof (all_present_step callables validators _ _ _ _ Hp) as Hp'.
  pose proof (_validate_dict_item_keys key key_validator data
                (Hp key (or_introl eq_refl))) as Hk.
  destruct (_validate_dict_item callables validators key key_validator data) as [data1 r].
  simpl in *. destruct r as [m | e]; [| exact Hk].
  destruct (msg_truthy m); [exact Hk |].
  rewrite IH by exact Hp'. exact Hk.
Qed.

Lemma validate_items_returns (items : dict) : forall data,
  (forall key spec, In (key, spec) items ->
     exists kv, spec = PDict kv /\ truthy (get kv "convert_to") = false) ->
  never_raises validators ->
  exists m, snd (validate_items callables validators items data) = Ok m.
Proof.
  induction items as [| [key key_validator] items IH]; intros data Hspecs Hnr; simpl;
    [eauto |].
  destruct (Hspecs key key_validator (or_introl eq_refl)) as [kv [-> Hconv]].
  assert (Hitem : exists m, snd (_validate_dict_item callables validators key (PDict kv) data)
                            = Ok m).
  { unfold _validate_dict_item, convert. rewrite Hconv.
    destruct (find_type kv) as [[k val_params] |]; [| simpl; eauto].
    destruct (validators !! k) as [val_func |] eqn:Hk; [| simpl; eauto].
    destruct (Hnr k val_func (get data key) val_params Hk) as [m Hm].
    destruct (v_call val_func (get data key) val_params) as [x r]. simpl in *. eauto. }
  destruct (_validate_dict_item callables validators key (PDict kv) data) as [data1 r].
  destruct Hitem as [m Hm]. simpl in Hm. subst r.
  destruct (msg_truthy m); [simpl; eauto |].
  apply IH; [| exact Hnr]. intros k s Hin. apply (Hspecs k s). right. exact Hin.
Qed.

Lemma validate_items_stops (items : dict) : forall data data' r,
  unique (keys items) = true -> all_present items data ->
  validate_items callables validators items data = (data', r) -> r <> Ok None ->
  exists pre key spec post,
    items = (pre ++ (key, spec) :: post)%list /\
    forallb (fun ks => key_passes callables validators (snd ks) (get data (fst ks))) pre
      = true /\
    key_passes callables validators spec (get data key) = false /\
    (forall k, In k (keys post) -> lookup data' k = lookup data k).
Proof.
  induction items as [| [k0 kvd] items IH]; intros data data' r Hu Hp Hrun Hr;
    simpl in Hrun.
  - injection Hrun as _ <-. contradiction.
  - apply (unique_cons k0 (keys items)) in Hu as [Hnotin Hu].
    assert (Hk0 : contains data k0 = true) by (apply Hp; left; reflexivity).
    pose proof Hk0 as Hk0'. apply contains_lookup in Hk0' as [v Hv].
    assert (Hget : get data k0 = v) by (unfold get; rewrite Hv; reflexivity).
    pose proof (all_present_step callables validators _ _ _ _ Hp) as Hp'.
    pose proof (fun k => _validate_dict_item_frame callables validators k0 kvd data k Hk0)
      as Hframe.
    pose proof (_validate_dict_item_outcome callables validators k0 kvd data v Hv) as Hout.
    destruct (_validate_dict_item callables validators k0 kvd data) as [data1 r1].
    simpl in *.
    assert (Hstop : key_passes callables validators kvd v = false ->
                    (data1, r1) = (data', r) ->
                    exists pre key spec post,
                      (k0, kvd) :: items = (pre ++ (key, spec) :: post)%list /\
                      forallb (fun ks => key_passes callables validators (snd ks)
                                           (get data (fst ks))) pre = true /\
                      key_passes callables validators spec (get data key) = false /\
                      (forall k, In k (keys post) -> lookup data' k = lookup data k)).
    { intros Hfail Heq. injection Heq as <- <-.
      exists [], k0, kvd, items. rewrite Hget. repeat split; [exact Hfail |].
      intros k Hk. apply Hframe. intros ->. contradiction. }
    destruct r1 as [m | e]; [| apply Hstop; assumption].
    destruct (msg_truthy m) eqn:Hm; simpl in Hout; [apply Hstop; assumption |].
    destruct (IH data1 data' r Hu Hp' Hrun Hr) as [pre [key [spec [post [-> [Hpre [Hkey Hpost]]]]]]].
    assert (Hne : forall k, In k (keys (pre ++ (key, spec) :: post)%list) -> k <> k0)
      by (intros k Hk ->; contradiction).
    exists ((k0, kvd) :: pre), key, spec, post. repeat split.
    + simpl. rewrite Hget, Hout. simpl.
      rewrite <- Hpre. apply forallb_ext_in. intros [k s] Hin. simpl. unfold get.
      rewrite Hframe; [reflexivity |].
      apply Hne. unfold keys. rewrite map_app. apply in_or_app. left.
      apply (In_keys _ _ s). exact Hin.
    + rewrite <- Hkey. unfold get. rewrite Hframe; [reflexivity |].
      apply Hne. unfold keys. rewrite map_app. apply in_or_app. right. left. reflexivity.
    + intros k Hk. rewrite Hpost by exact Hk. apply Hframe.
      apply Hne. unfold keys. rewrite map_app. apply in_or_app. right. right. exact Hk.
Qed.

End PayloadFacts.

(** X13: [validate_dict] changes values only: whatever the schema and the
    outcome, the payload keeps its keys, in their order. *)
Theorem validate_dict_keeps_keys
    (callables : string -> pyval -> exc pyval) (validators : gmap string validator)
    (d : dict) (key_specs : pyval) :
  exists d',
    fst (validate_dict callables validators (PDict d) key_specs) = PDict d' /\
    keys d' = keys d.
Proof.
  unfold validate_dict.
  destruct (negb (truthy key_specs)); [exists d; split; reflexivity |].
  destruct key_specs as [| | | | | specs |]; try (exists d; split; reflexivity).
  destruct (required_keys specs) as [req | e]; [| exists d; split; reflexivity].
  match goal with |- context [msg_truthy ?m] => destruct (msg_truthy m) end;
    [exists d; split; reflexivity |].
  destruct (unexpected_keys d specs); [| exists d; split; reflexivity].
  pose proof (validate_items_keys callables validators (present_items specs d) d
                (fun k => present_items_present d specs k)) as Hk.
  destruct (validate_items callables validators (present_items specs d) d) as [d1 r].
  exists d1. split; [reflexivity | exact Hk].
Qed.

(** X14: [validate_dict] stops at the first key, in schema order, that does
    not pass: when it does not succeed, either the payload is untouched (the
    required or unexpected keys failed), or the declared keys before that key
    all passed and the values of the keys declared after it are as they
    were. *)
Theorem validate_dict_stops_at_first_failure
    (callables : string -> pyval -> exc pyval) (validators : gmap string validator)
    (d specs d' : dict) (r : exc msg) :
  unique (keys specs) = true ->
  validate_dict callables validators (PDict d) (PDict specs) = (PDict d', r) ->
  r <> Ok None ->
  d' = d \/
  exists pre key spec post,
    present_items specs d = (pre ++ (key, spec) :: post)%list /\
    forallb (fun ks => key_passes callables validators (snd ks) (get d (fst ks))) pre
      = true /\
    key_passes callables validators spec (get d key) = false /\
    (forall k, In k (keys post) -> lookup d' k = lookup d k).
Proof.
  intros Hu Hrun Hr. unfold validate_dict in Hrun.
  destruct (negb (truthy (PDict specs))); [left; congruence |].
  destruct (required_keys specs) as [req | e]; [| left; congruence].
  match type of Hrun with context [msg_truthy ?m] => destruct (msg_truthy m) end;
    [left; congruence |].
  destruct (unexpected_keys d specs); [| left; congruence].
  destruct (validate_items callables validators (present_items specs d) d)
    as [d1 r1] eqn:Hitems.
  injection Hrun as -> ->. right.
  apply (validate_items_stops callables validators _ d d' r
           (present_items_unique d specs Hu)
           (fun k => present_items_present d specs k) Hitems Hr).
Qed.

Lemma validate_dict_stops_at_first_failure_witness :
  let specs := [("a", PDict [("convert_to", PFun "int"); ("type:non_negative", PNone)]);
                ("b", PDict [("convert_to", PFun "int"); ("type:non_negative", PNone)]);
                ("c", PDict [("convert_to", PFun "int")])] in
  let d := [("c", PStr "3"); ("b", PStr "-2"); ("a", PStr "1")] in
  let d' := [("c", PStr "3"); ("b", PInt (-2)); ("a", PInt 1)] in
  validate_dict builtins leaf_validators (PDict d) (PDict specs)
    = (PDict d', Ok (Some "'-2' should be non-negative")) /\
  (d' = d \/
   exists pre key spec post,
     present_items specs d = (pre ++ (key, spec) :: post)%list /\
     forallb (fun ks => key_passes builtins leaf_validators (snd ks) (get d (fst ks))) pre
       = true /\
     key_passes builtins leaf_validators spec (get d key) = false /\
     (forall k, In k (keys post) -> lookup d' k = lookup d k)).
Proof.
  intros specs d d'. split; [reflexivity |].
  apply (validate_dict_stops_at_first_failure builtins leaf_validators d specs d'
           (Ok (Some "'-2' should be non-negative")));
    [reflexivity | reflexivity | discriminate].
Defined.

(** X15: under a schema whose KeySpecs are dicts without conversion, and a
    table whose validators do not raise, [validate_dict] does not raise: what
    it raises comes from a conversion, from a validator or from a KeySpec
    that is no dict. *)
Theorem validate_dict_returns
    (callables : string -> pyval -> exc pyval) (validators : gmap string validator)
    (data : pyval) (specs : dict) :
  forallb is_dict (map snd specs) = true ->
  no_conversion specs ->
  never_raises validators ->
  exists m, snd (validate_dict callables validators data (PDict specs)) = Ok m.
Proof.
  intros Hd Hconv Hnr.
  destruct data as [| | | | | d |]; try (eexists; reflexivity).
  destruct specs as [| s0 specs]; [eexists; reflexivity |].
  rewrite validate_dict_steps by (assumption || discriminate).
  match goal with |- context [if ?c then _ else _] => destruct c end; [simpl; eauto |].
  destruct (unexpected_keys d (s0 :: specs)); [| simpl; eauto].
  cbn [snd]. apply validate_items_returns; [| exact Hnr].
  intros key spec Hin. unfold present_items in Hin. apply filter_In in Hin as [Hin _].
  assert (Hs : is_dict spec = true).
  { rewrite forallb_forall in Hd. apply Hd.
    change spec with (snd (key, spec)). apply in_map. exact Hin. }
  destruct spec as [| | | | | kv |]; try discriminate.
  exists kv. split; [reflexivity |]. apply (Hconv key kv Hin).
Qed.

Lemma validate_dict_returns_witness :
  let table : gmap string validator :=
    <["type:non_negative" :=
        Validator (Ok "def validate_non_negative(data, valid_values=None)")
                  (reads validate_non_negative)]> ∅ in
  let specs := [("a", PDict [("required", PBool true); ("type:non_negative", PNone)])] in
  (forallb is_dict (map snd specs) = true /\ no_conversion specs /\ never_raises table) /\
  exists m, snd (validate_dict builtins table (PDict [("a", PList [])]) (PDict specs)) = Ok m.
Proof.
  intros table specs.
  assert (Hc : no_conversion specs).
  { intros key kv [H | []]. injection H as _ <-. reflexivity. }
  assert (Hn : never_raises table).
  { intros k val_func x val_params Hk. unfold table in Hk.
    apply lookup_insert_Some in Hk as [[_ <-] | [_ Hk]].
    - apply validate_non_negative_total.
    - rewrite lookup_empty in Hk. discriminate. }
  split; [repeat split; assumption |].
  apply (validate_dict_returns builtins table (PDict [("a", PList [])]) specs eq_refl Hc Hn).
Defined.

(** X16: the empty dict passes [validate_dict_or_empty] and
    [validate_dict_or_nodata] under every schema, while [validate_dict]
    refuses it as soon as the schema requires a key; on a dict that is not
    empty the three are one function, whatever the schema. *)
Theorem validate_dict_or_empty_skips_required
    (callables : string -> pyval -> exc pyval) (validators : gmap string validator) :
  (forall key_specs,
     validate_dict_or_empty callables validators (PDict []) key_specs = (PDict [], Ok None) /\
     validate_dict_or_nodata callables validators (PDict []) key_specs
       = (PDict [], Ok None)) /\
  (forall specs,
     forallb is_dict (map snd specs) = true ->
     existsb (fun ks => is_required (snd ks)) specs = true ->
     exists m, validate_dict callables validators (PDict []) (PDict specs)
               = (PDict [], Ok (Some m)) /\ m <> "") /\
  (forall d key_specs, d <> [] ->
     validate_dict_or_empty callables validators (PDict d) key_specs
       = validate_dict callables validators (PDict d) key_specs /\
     validate_dict_or_nodata callables validators (PDict d) key_specs
       = validate_dict callables validators (PDict d) key_specs).
Proof.
  split; [intros key_specs; split; reflexivity |]. split.
  - intros specs Hd Hreq.
    assert (Hne : specs <> []) by (destruct specs; [discriminate | discriminate]).
    rewrite validate_dict_steps by assumption.
    assert (Hf : forallb (fun ks => implb (is_required (snd ks)) (contains [] (fst ks)))
                   specs = false).
    { clear Hd Hne. induction specs as [| [k s] specs IH]; simpl in *; [discriminate |].
      destruct (is_required s); simpl; [reflexivity |]. apply IH. exact Hreq. }
    rewrite Hf. simpl negb. cbv iota.
    pose proof (_verify_dict_keys_subset
                  (keys (List.filter (fun ks => is_required (snd ks)) specs)) []) as Hv.
    rewrite required_present, Hf in Hv. change (negb false) with true in Hv.
    destruct (_verify_dict_keys _ (PDict []) false) as [m |]; [| discriminate Hv].
    exists m. split; [reflexivity |]. intros ->. discriminate Hv.
  - intros d key_specs Hd'. destruct d; [contradiction |]. split; reflexivity.
Qed.

Lemma validate_dict_or_empty_skips_required_witness :
  let specs := [("a", PDict [("required", PBool true); ("type:string", PNone)])] in
  (forallb is_dict (map snd specs) = true /\
   existsb (fun ks => is_required (snd ks)) specs = true /\
   [("b", PInt 1)] <> []) /\
  validate_dict_or_empty builtins leaf_validators (PDict []) (PDict specs)
    = (PDict [], Ok None) /\
  (exists m, validate_dict builtins leaf_validators (PDict []) (PDict specs)
             = (PDict [], Ok (Some m)) /\ m <> "") /\
  validate_dict_or_nodata builtins leaf_validators (PDict [("b", PInt 1)]) (PDict specs)
    = validate_dict builtins leaf_validators (PDict [("b", PInt 1)]) (PDict specs).
Proof.
  intros specs.
  pose proof (validate_dict_or_empty_skips_required builtins leaf_validators)
    as (Hempty & Hrequired & Hsame).
  split; [| split; [| split]].
  - split; [reflexivity |]. split; [reflexivity | discriminate].
  - apply (proj1 (Hempty (PDict specs))).
  - apply (Hrequired specs); reflexivity.
  - apply (proj2 (Hsame [("b", PInt 1)] (PDict specs) ltac:(discriminate))).
Defined.

(** ** Membership *)

Lemma py_eq_hashable (x : pyval) : hashable x = true -> py_eq x x = true.
Proof.
  destruct x as [| b | z | s | l | d | f]; simpl; try discriminate; intros _.
  - reflexivity.
  - destruct b; reflexivity.
  - apply Z.eqb_refl.
  - apply String.eqb_refl.
  - apply String.eqb_refl.
Qed.

(** X17: [validate_values] accepts everything under [None]; under a list it
    never raises and accepts exactly the data equal to some item, so every
    hashable item of the list is accepted; under a constraint without
    membership test (a number, a boolean, a function) it raises [TypeError]
    for every data, and so it does for unhashable data under a dict. *)
Theorem validate_values_outcomes (data display : pyval) :
  validate_values data PNone display = Ok None /\
  (forall l,
      (exists m, validate_values data (PList l) display = Ok m) /\
      (validate_values data (PList l) display = Ok None <->
       exists item, In item l /\ py_eq item data = true) /\
      (hashable data = true -> In data l ->
       validate_values data (PList l) display = Ok None)) /\
  (forall valid_values,
      match valid_values with
      | PInt _ | PBool _ | PFun _ => True
      | PDict _ => hashable data = false
      | _ => False
      end ->
      validate_values data valid_values display = Raise TypeError).
Proof.
  split; [reflexivity |]. split.
  - intros l. unfold validate_values, member, list_contains.
    assert (Hiff : existsb (fun item => py_eq item data) l = true <->
                   exists item, In item l /\ py_eq item data = true)
      by apply existsb_exists.
    destruct (existsb (fun item => py_eq item data) l); split; eauto; split.
    + split; [intros _; apply Hiff; reflexivity | reflexivity].
    + reflexivity.
    + split; [discriminate |]. intros H. apply Hiff in H. discriminate.
    + intros Hh Hin. exfalso.
      assert (false = true); [| discriminate].
      apply Hiff. exists data. split; [exact Hin | apply py_eq_hashable; exact Hh].
  - intros valid_values H. unfold validate_values, member.
    destruct valid_values; try contradiction; try reflexivity.
    rewrite H. reflexivity.
Qed.

Lemma validate_values_outcomes_witness :
  (hashable (PInt 1) = true /\ In (PInt 1) [PStr "a"; PBool true; PInt 1]) /\
  validate_values (PInt 1) (PList [PStr "a"; PBool true; PInt 1]) PNone = Ok None.
Proof.
  split; [split; [reflexivity | right; right; left; reflexivity] |].
  apply (proj2 (proj2 (proj1 (proj2 (validate_values_outcomes (PInt 1) PNone))
                         [PStr "a"; PBool true; PInt 1]))).
  - reflexivity.
  - right. right. left. reflexivity.
Defined.

(** ** Blank strings *)

Lemma str_lstrip_blank (s : string) : str_lstrip s = "" <-> blank s = true.
Proof.
  induction s as [| c s IH]; simpl; [split; reflexivity |].
  destruct (str_isspace c); simpl; [exact IH | split; discriminate].
Qed.

Lemma str_rstrip_blank (s : string) : str_rstrip s = "" <-> blank s = true.
Proof.
  induction s as [| c s IH]; simpl; [split; reflexivity |].
  destruct (str_rstrip s) as [| c' r] eqn:Hr.
  - destruct (str_isspace c); simpl; [| split; discriminate].
    rewrite <- IH. split; reflexivity.
  - split; [discriminate |]. intros H. apply andb_prop in H as [_ Hb].
    apply IH in Hb. discriminate Hb.
Qed.

Lemma blank_lstrip (s : string) : blank (str_lstrip s) = blank s.
Proof.
  induction s as [| c s IH]; simpl; [reflexivity |].
  destruct (str_isspace c) eqn:Hc; simpl; [exact IH | rewrite Hc; reflexivity].
Qed.

Lemma strip_blank (s : string) : String.eqb (strip s) "" = blank s.
Proof.
  apply bool_iff_eq. rewrite String.eqb_eq. unfold strip.
  rewrite str_rstrip_blank, blank_lstrip. reflexivity.
Qed.

(** X18: [validate_not_empty_string] passes exactly the strings that hold a
    character other than whitespace and, with an integer [max_len], have at
    most that length; the empty string and strings of blanks get the "Blank
    strings" message, and [None] passes the [_or_none] form only. *)
Theorem validate_not_empty_string_accepts (s : string) :
  (validate_not_empty_string (PStr s) PNone = Ok None <-> blank s = false) /\
  (forall n : Z,
      validate_not_empty_string (PStr s) (PInt n) = Ok None <->
      blank s = false /\ Z.of_nat (String.length s) <= n) /\
  (blank s = true ->
   validate_not_empty_string (PStr s) PNone
     = Ok (Some ("'" ++ s ++ "' Blank strings are not permitted"))) /\
  validate_not_empty_string_or_none PNone PNone = Ok None /\
  validate_not_empty_string PNone PNone = Ok (Some "'None' is not a valid string").
Proof.
  unfold validate_not_empty_string. simpl. rewrite strip_blank.
  split; [| split; [| split; [| split; reflexivity]]].
  - destruct (blank s); split; (reflexivity || discriminate).
  - intros n. destruct (Z.ltb_spec n (Z.of_nat (String.length s))); simpl.
    + split; [discriminate | intros [_ Hle]; lia].
    + destruct (blank s); split; try discriminate; try reflexivity.
      * intros [Hb _]. discriminate Hb.
      * intros _. split; [reflexivity | lia].
  - intros ->. reflexivity.
Qed.

Lemma validate_not_empty_string_accepts_witness :
  blank "  " = true /\
  validate_not_empty_string (PStr "  ") PNone
    = Ok (Some "'  ' Blank strings are not permitted").
Proof.
  split; [reflexivity |].
  apply (proj1 (proj2 (proj2 (validate_not_empty_string_accepts "  ")))). reflexivity.
Defined.

(** ** Addresses *)

Lemma _verify_dict_keys_truthy (expected_keys : list string) (target : pyval) (strict : bool) :
  msg_truthy (_verify_dict_keys expected_keys target strict) = false <->
  _verify_dict_keys expected_keys target strict = None.
Proof.
  split; [| intros ->; reflexivity].
  unfold _verify_dict_keys. destruct target; try discriminate.
  destruct (negb _); [discriminate | reflexivity].
Qed.

Section AddressFacts.

Variable IPAddress : string -> option address.
Variable IPNetwork : string -> option network.
Variable is_uuid_like : pyval -> bool.

Lemma validate_ip_address_string (s : string) (valid_values : pyval) :
  validate_ip_address IPAddress (PStr s) valid_values =
    if has_space s then Some (invalid_ip (PStr s))
    else
      match IPAddress s with
      | Some ip =>
          if negb (has_char ":" s) && negb (count_char "." s =? 3)%nat then
            Some (invalid_ip (PStr s))
          else if (version ip =? 4) && negb (String.eqb (text ip) s) then
            Some ("'" ++ s ++ "' is not an accepted IP address, '"
                  ++ text ip ++ "' is recommended")
          else None
      | None => Some (invalid_ip (PStr s))
      end.
Proof.
  unfold validate_ip_address, validate_no_whitespace.
  destruct (has_space s); reflexivity.
Qed.

Lemma validate_ip_address_not_string (data valid_values : pyval) :
  (forall s, data <> PStr s) ->
  validate_ip_address IPAddress data valid_values = Some (invalid_ip data).
Proof.
  intros H. destruct data as [| | | s | | |]; try reflexivity. destruct (H s eq_refl).
Qed.

Lemma validate_ip_address_truthy (data valid_values : pyval) :
  msg_truthy (validate_ip_address IPAddress data valid_values) = false <->
  validate_ip_address IPAddress data valid_values = None.
Proof.
  split; [| intros ->; reflexivity].
  destruct data as [| | | s | | |]; try discriminate.
  rewrite validate_ip_address_string.
  repeat match goal with
         | |- context [if ?c then _ else _] => destruct c
         | |- context [match IPAddress s with _ => _ end] => destruct (IPAddress s)
         end; (discriminate || reflexivity).
Qed.

Lemma validate_subnet_string (s : string) (valid_values : pyval) :
  validate_subnet IPNetwork (PStr s) valid_values =
    if has_space s then Some ("'" ++ s ++ "' is not a valid IP subnet")
    else
      match IPNetwork s with
      | Some net =>
          if negb (has_char "/" s)
             || ((net_version net =? 4) && negb (String.eqb (net_text net) s)) then
            Some ("'" ++ s ++ "' isn't a recognized IP subnet cidr, '"
                  ++ net_cidr net ++ "' is recommended")
          else None
      | None => Some ("'" ++ s ++ "' is not a valid IP subnet")
      end.
Proof.
  unfold validate_subnet, validate_no_whitespace.
  destruct (has_space s); reflexivity.
Qed.

Lemma validate_subnet_truthy (data valid_values : pyval) :
  msg_truthy (validate_subnet IPNetwork data valid_values) = false <->
  validate_subnet IPNetwork data valid_values = None.
Proof.
  split; [| intros ->; reflexivity].
  destruct data as [| | | s | | |]; try discriminate.
  rewrite validate_subnet_string.
  repeat match goal with
         | |- context [if ?c then _ else _] => destruct c
         | |- context [match IPNetwork s with _ => _ end] => destruct (IPNetwork s)
         end; (discriminate || reflexivity).
Qed.

Lemma validate_uuid_truthy (data valid_values : pyval) :
  msg_truthy (validate_uuid is_uuid_like data valid_values) = false <->
  is_uuid_like data = true.
Proof.
  unfold validate_uuid. destruct (is_uuid_like data); simpl; split;
    (reflexivity || discriminate).
Qed.

End AddressFacts.

Lemma validate_ip_address_invalid (IPAddress : string -> option address)
    (data valid_values : pyval) :
  (forall s, data = PStr s ->
     has_space s = true \/ (has_char ":" s = false /\ count_char "." s <> 3%nat)) ->
  validate_ip_address IPAddress data valid_values = Some (invalid_ip data).
Proof.
  intros H. destruct data as [| | | s | | |];
    try (apply validate_ip_address_not_string; discriminate).
  rewrite validate_ip_address_string.
  destruct (H s eq_refl) as [Hs | [Hc Hd]].
  - rewrite Hs. reflexivity.
  - destruct (has_space s); [reflexivity |].
    destruct (IPAddress s); [| reflexivity].
    rewrite Hc. apply Nat.eqb_neq in Hd. rewrite Hd. reflexivity.
Qed.

(** X19: whatever [netaddr] makes of it, [validate_ip_address] refuses data
    that is no string, a string with whitespace, and a string without a colon
    whose number of dots is not three; the message is "... is not a valid IP
    address". *)
Theorem validate_ip_address_rejects (IPAddress : string -> option address)
    (data valid_values : pyval) :
  (forall s, data = PStr s ->
     has_space s = true \/ (has_char ":" s = false /\ count_char "." s <> 3%nat)) ->
  validate_ip_address IPAddress data valid_values = Some (invalid_ip data).
Proof. apply validate_ip_address_invalid. Qed.

Lemma validate_ip_address_rejects_witness :
  (forall s, PStr "10.1" = PStr s ->
     has_space s = true \/ (has_char ":" s = false /\ count_char "." s <> 3%nat)) /\
  sample_IPAddress "10.1" = Some (Address 4 "10.0.0.1") /\
  validate_ip_address sample_IPAddress (PStr "10.1") PNone
    = Some "'10.1' is not a valid IP address".
Proof.
  assert (H : forall s, PStr "10.1" = PStr s ->
                has_space s = true \/ (has_char ":" s = false /\ count_char "." s <> 3%nat)).
  { intros s Hs. injection Hs as <-. right. split; [reflexivity | discriminate]. }
  split; [exact H |]. split; [reflexivity |].
  apply (validate_ip_address_rejects sample_IPAddress (PStr "10.1") PNone H).
Defined.

(** X20: [validate_ip_address] accepts exactly the strings without
    whitespace that [netaddr] parses, with a colon or exactly three dots,
    and, when the address is IPv4, equal to the text [netaddr] gives back, so
    a zero-padded octet is refused. *)
Theorem validate_ip_address_accepts (IPAddress : string -> option address)
    (data valid_values : pyval) :
  validate_ip_address IPAddress data valid_values = None <->
  exists s ip,
    data = PStr s /\ has_space s = false /\ IPAddress s = Some ip /\
    (has_char ":" s = true \/ count_char "." s = 3%nat) /\
    (version ip = 4 -> text ip = s).
Proof.
  split.
  - destruct data as [| | | s | | |]; try discriminate.
    rewrite validate_ip_address_string.
    destruct (has_space s) eqn:Hs; [discriminate |].
    destruct (IPAddress s) as [ip |] eqn:Hip; [| discriminate].
    destruct (has_char ":" s) eqn:Hc; simpl.
    + destruct (Z.eqb_spec (version ip) 4) as [Hv | Hv]; simpl.
      * destruct (String.eqb_spec (text ip) s) as [Ht | Ht]; [| discriminate].
        intros _. exists s, ip. repeat split; auto.
      * intros _. exists s, ip. repeat split; auto. intros Hv'. contradiction.
    + destruct (Nat.eqb_spec (count_char "." s) 3) as [Hd | Hd]; [| discriminate].
      simpl.
      destruct (Z.eqb_spec (version ip) 4) as [Hv | Hv]; simpl.
      * destruct (String.eqb_spec (text ip) s) as [Ht | Ht]; [| discriminate].
        intros _. exists s, ip. repeat split; auto.
      * intros _. exists s, ip. repeat split; auto. intros Hv'. contradiction.
  - intros (s & ip & -> & Hw & Hip & Hshape & Hcanon).
    rewrite validate_ip_address_string, Hw, Hip.
    assert (Hsh : negb (has_char ":" s) && negb (count_char "." s =? 3)%nat = false).
    { destruct Hshape as [-> | ->]; [reflexivity |]. apply andb_false_r. }
    rewrite Hsh.
    destruct (Z.eqb_spec (version ip) 4) as [Hv | Hv]; [| reflexivity].
    rewrite (Hcanon Hv), String.eqb_refl. reflexivity.
Qed.

Lemma validate_ip_address_accepts_witness :
  (has_space "::1" = false /\ sample_IPAddress "::1" = Some (Address 6 "::1")) /\
  validate_ip_address sample_IPAddress (PStr "::1") PNone = None /\
  validate_ip_address sample_IPAddress (PStr "010.0.0.1") PNone
    = Some "'010.0.0.1' is not an accepted IP address, '10.0.0.1' is recommended".
Proof.
  split; [split; reflexivity |]. split; [| reflexivity].
  apply (proj2 (validate_ip_address_accepts sample_IPAddress (PStr "::1") PNone)).
  exists "::1", (Address 6 "::1").
  split; [reflexivity |]. split; [reflexivity |]. split; [reflexivity |].
  split; [left; reflexivity | discriminate].
Defined.

(** X21: [validate_subnet] accepts exactly the strings without whitespace
    that hold a slash, that [netaddr] parses as a network and, for IPv4, that
    equal the text [netaddr] gives back; an address without a prefix length
    is never accepted. *)
Theorem validate_subnet_accepts (IPNetwork : string -> option network)
    (data valid_values : pyval) :
  validate_subnet IPNetwork data valid_values = None <->
  exists s net,
    data = PStr s /\ has_space s = false /\ has_char "/" s = true /\
    IPNetwork s = Some net /\ (net_version net = 4 -> net_text net = s).
Proof.
  split.
  - destruct data as [| | | s | | |]; try discriminate.
    rewrite validate_subnet_string.
    destruct (has_space s) eqn:Hs; [discriminate |].
    destruct (IPNetwork s) as [net |] eqn:Hnet; [| discriminate].
    destruct (has_char "/" s) eqn:Hc; simpl; [| discriminate].
    destruct (Z.eqb_spec (net_version net) 4) as [Hv | Hv]; simpl.
    + destruct (String.eqb_spec (net_text net) s) as [Ht | Ht]; [| discriminate].
      intros _. exists s, net. repeat split; auto.
    + intros _. exists s, net. repeat split; auto. intros Hv'. contradiction.
  - intros (s & net & -> & Hw & Hc & Hnet & Hcanon).
    rewrite validate_subnet_string, Hw, Hnet, Hc. simpl.
    destruct (Z.eqb_spec (net_version net) 4) as [Hv | Hv]; [| reflexivity].
    rewrite (Hcanon Hv), String.eqb_refl. reflexivity.
Qed.

Lemma validate_subnet_accepts_witness :
  (has_space "10.0.0.0/24" = false /\ has_char "/" "10.0.0.0/24" = true) /\
  validate_subnet sample_IPNetwork (PStr "10.0.0.0/24") PNone = None /\
  validate_subnet sample_IPNetwork (PStr "10.0.0.0") PNone
    = Some "'10.0.0.0' isn't a recognized IP subnet cidr, '10.0.0.0/32' is recommended".
Proof.
  split; [split; reflexivity |]. split; [| reflexivity].
  apply (proj2 (validate_subnet_accepts sample_IPNetwork (PStr "10.0.0.0/24") PNone)).
  exists "10.0.0.0/24", (Network 4 "10.0.0.0/24" "10.0.0.0/24").
  split; [reflexivity |]. split; [reflexivity |]. split; [reflexivity |].
  split; reflexivity.
Defined.

(** ** Lists of pools, routes and addresses *)

Lemma In_two (k a b : string) : In k [a; b] <-> k = a \/ k = b.
Proof.
  simpl. split.
  - intros [<- | [<- | []]]; auto.
  - intros [-> | ->]; auto.
Qed.

Section StructuredLists.

Variable IPAddress : string -> option address.
Variable IPNetwork : string -> option network.
Variable is_uuid_like : pyval -> bool.

Lemma getitem_present (d : dict) (k : string) :
  In k (keys d) -> getitem (PDict d) k = Ok (get d k).
Proof.
  intros H. apply contains_keys, contains_lookup in H as [v Hv].
  unfold getitem, get. rewrite Hv. reflexivity.
Qed.

(** One pool: it passes the two checks exactly when it is as wanted, and
    nothing is raised. *)
Lemma ip_pool_step (ip_pool : pyval) :
  (msg_truthy (_verify_dict_keys ["start"; "end"] ip_pool true) = false /\
   pool_addresses IPAddress ip_pool ["start"; "end"] = Ok None /\
   pool_ok IPAddress ip_pool) \/
  (~ pool_ok IPAddress ip_pool /\
   (msg_truthy (_verify_dict_keys ["start"; "end"] ip_pool true) = true \/
    exists m, pool_addresses IPAddress ip_pool ["start"; "end"] = Ok m /\
              msg_truthy m = true)).
Proof.
  destruct (msg_truthy (_verify_dict_keys ["start"; "end"] ip_pool true)) eqn:Hv.
  - right. split; [| left; reflexivity].
    intros [d [-> [Hk _]]].
    assert (Hn : _verify_dict_keys ["start"; "end"] (PDict d) true = None).
    { apply _verify_dict_keys_same_keys. intros k. rewrite Hk. apply In_two. }
    rewrite Hn in Hv. discriminate Hv.
  - apply _verify_dict_keys_truthy in Hv.
    destruct ip_pool as [| | | | | d |]; try discriminate.
    pose proof (proj1 (_verify_dict_keys_same_keys _ d) Hv) as Hk.
    assert (Hkeys : forall k, In k (keys d) <-> k = "start" \/ k = "end").
    { intros k. rewrite <- Hk. apply In_two. }
    unfold pool_addresses.
    rewrite !getitem_present by (apply Hkeys; auto). simpl bind.
    destruct (msg_truthy (validate_ip_address IPAddress (get d "start") PNone)) eqn:H1.
    + right. split; [| right; eauto].
      intros [d0 [Hd [_ [Hs _]]]]. injection Hd as <-. rewrite Hs in H1. discriminate H1.
    + destruct (msg_truthy (validate_ip_address IPAddress (get d "end") PNone)) eqn:H2.
      * right. split; [| right; eauto].
        intros [d0 [Hd [_ [_ He]]]]. injection Hd as <-. rewrite He in H2.
        discriminate H2.
      * left. apply validate_ip_address_truthy in H1, H2.
        repeat split; try reflexivity. exists d. auto.
Qed.

Lemma ip_pools_loop_spec (l : list pyval) :
  (exists m, ip_pools_loop IPAddress ["start"; "end"] l = Ok m) /\
  (ip_pools_loop IPAddress ["start"; "end"] l = Ok None <-> Forall (pool_ok IPAddress) l).
Proof.
  induction l as [| p l [[m IHm] IH]].
  - simpl. split; [eauto | split; [constructor | reflexivity]].
  - cbn [ip_pools_loop].
    destruct (ip_pool_step p) as [[Hv [Ha Hok]] | [Hbad [Hv | [ma [Ha Hm]]]]].
    + rewrite Hv, Ha. simpl. rewrite IH. split; [eauto |]. split.
      * intros H. constructor; assumption.
      * intros H. inversion H; assumption.
    + rewrite Hv. split; [eauto |]. split.
      * intros H. injection H as H. rewrite H in Hv. discriminate Hv.
      * intros H. inversion H; contradiction.
    + destruct (msg_truthy (_verify_dict_keys ["start"; "end"] p true)) eqn:Hv.
      * split; [eauto |]. split.
        -- intros H. injection H as H. rewrite H in Hv. discriminate Hv.
        -- intros H. inversion H; contradiction.
      * rewrite Ha. simpl. rewrite Hm. split; [eauto |]. split.
        -- intros H. injection H as ->. discriminate Hm.
        -- intros H. inversion H; contradiction.
Qed.

Lemma hostroute_step (hostroute : pyval) :
  msg_truthy (_verify_dict_keys ["destination"; "nexthop"] hostroute true) = false ->
  exists d, hostroute = PDict d /\
    (forall k, In k (keys d) <-> k = "destination" \/ k = "nexthop") /\
    getitem hostroute "destination" = Ok (get d "destination") /\
    getitem hostroute "nexthop" = Ok (get d "nexthop").
Proof.
  intros Hv. apply _verify_dict_keys_truthy in Hv.
  destruct hostroute as [| | | | | d |]; try discriminate.
  pose proof (proj1 (_verify_dict_keys_same_keys _ d) Hv) as Hk.
  assert (Hkeys : forall k, In k (keys d) <-> k = "destination" \/ k = "nexthop").
  { intros k. rewrite <- Hk. apply In_two. }
  exists d. repeat split; try apply Hkeys; auto; apply getitem_present, Hkeys; auto.
Qed.

Lemma hostroutes_loop_spec (l : list pyval) : forall hostroutes,
  (exists m, hostroutes_loop IPAddress IPNetwork hostroutes l = Ok m) /\
  (hostroutes_loop IPAddress IPNetwork hostroutes l = Ok None ->
   Forall (route_ok IPAddress IPNetwork) l).
Proof.
  induction l as [| h l IH]; intros hostroutes.
  - simpl. split; [eauto | constructor].
  - cbn [hostroutes_loop].
    destruct (msg_truthy (_verify_dict_keys ["destination"; "nexthop"] h true)) eqn:Hv.
    { split; [eauto |]. intros H. injection H as H. rewrite H in Hv. discriminate Hv. }
    destruct (hostroute_step h Hv) as [d [-> [Hkeys [Hd Hn]]]].
    rewrite Hd. cbn [bind].
    destruct (msg_truthy (validate_subnet IPNetwork (get d "destination") PNone)) eqn:Hs.
    { split; [eauto |]. intros H. injection H as H. rewrite H in Hs. discriminate Hs. }
    rewrite Hn. cbn [bind].
    destruct (msg_truthy (validate_ip_address IPAddress (get d "nexthop") PNone)) eqn:Hi.
    { split; [eauto |]. intros H. injection H as H. rewrite H in Hi. discriminate Hi. }
    destruct (list_contains hostroutes (PDict d)).
    { split; [eauto | discriminate]. }
    destruct (IH (hostroutes ++ [PDict d])%list) as [Hm Hok].
    split; [exact Hm |]. intros H. constructor; [| apply Hok; exact H].
    exists d. apply validate_subnet_truthy in Hs. apply validate_ip_address_truthy in Hi.
    auto.
Qed.

End StructuredLists.

(** X23: [validate_ip_pools] never raises, and it passes exactly the lists
    whose every entry is a dict with the keys [start] and [end] and no other,
    both values accepted by [validate_ip_address]; indexing the entry cannot
    fail because the key check comes first. *)
Theorem validate_ip_pools_accepts (IPAddress : string -> option address)
    (data valid_values : pyval) :
  (exists m, validate_ip_pools IPAddress data valid_values = Ok m) /\
  (validate_ip_pools IPAddress data valid_values = Ok None <->
   exists l, data = PList l /\ Forall (pool_ok IPAddress) l).
Proof.
  destruct data as [| | | | l | |];
    try (split; [eexists; reflexivity |];
         split; [discriminate | intros [l0 [H _]]; discriminate]).
  unfold validate_ip_pools. destruct (ip_pools_loop_spec IPAddress l) as [Hm Hiff].
  split; [exact Hm |]. rewrite Hiff. split.
  - intros H. exists l. auto.
  - intros [l0 [Hl H]]. injection Hl as <-. exact H.
Qed.

(** X26: [validate_hostroutes] never raises, and every entry of a list it
    passes is a dict with the keys [destination] and [nexthop] and no other,
    the first accepted as a subnet and the second as an address. *)
Theorem validate_hostroutes_accepts (IPAddress : string -> option address)
    (IPNetwork : string -> option network) (data valid_values : pyval) :
  (exists m, validate_hostroutes IPAddress IPNetwork data valid_values = Ok m) /\
  (validate_hostroutes IPAddress IPNetwork data valid_values = Ok None ->
   exists l, data = PList l /\ Forall (route_ok IPAddress IPNetwork) l).
Proof.
  destruct data as [| | | | l | |];
    try (split; [eexists; reflexivity | discriminate]).
  unfold validate_hostroutes.
  destruct (hostroutes_loop_spec IPAddress IPNetwork l []) as [Hm Hok].
  split; [exact Hm |]. intros H. exists l. auto.
Qed.

Lemma validate_hostroutes_accepts_witness :
  let route := PDict [("nexthop", PStr "10.0.0.1"); ("destination", PStr "10.0.0.0/24")] in
  validate_hostroutes sample_IPAddress sample_IPNetwork (PList [route]) PNone = Ok None /\
  (exists l, PList [route] = PList l /\
             Forall (route_ok sample_IPAddress sample_IPNetwork) l) /\
  validate_hostroutes sample_IPAddress sample_IPNetwork (PList [route; route]) PNone
    = Ok (Some ("Duplicate hostroute "
                ++ "'{'nexthop': '10.0.0.1', 'destination': '10.0.0.0/24'}'")).
Proof.
  intros route. split; [reflexivity |]. split; [| reflexivity].
  apply (proj2 (validate_hostroutes_accepts sample_IPAddress sample_IPNetwork
                  (PList [route]) PNone)).
  reflexivity.
Defined.

(** ** Lists without repeated addresses *)

Lemma list_contains_false (l : list pyval) (x : pyval) :
  list_contains l x = false <-> (forall s, In s l -> py_eq s x = false).
Proof.
  unfold list_contains. induction l as [| y l IH]; simpl.
  - split; [intros _ s [] | reflexivity].
  - rewrite orb_false_iff, IH. split.
    + intros [Hy Hl] s [<- | Hs]; auto.
    + intros H. split; [apply H; left; reflexivity |].
      intros s Hs. apply H. right. exact Hs.
Qed.

(** Nothing seen so far equals an item of [x :: l], and these differ from one
    another: the same with [x] seen. *)
Lemma unseen_cons (seen l : list pyval) (x : pyval) :
  (forall s y, In s seen -> In y (x :: l) -> py_eq s y = false) /\ different (x :: l) <->
  list_contains seen x = false /\
  (forall s y, In s (seen ++ [x])%list -> In y l -> py_eq s y = false) /\ different l.
Proof.
  rewrite list_contains_false. simpl. split.
  - intros [Hseen [Hx Hl]]. split; [| split].
    + intros s Hs. apply Hseen; auto.
    + intros s y Hs Hy. apply in_app_or in Hs as [Hs | [<- | []]]; auto.
    + exact Hl.
  - intros [Hx [Hseen Hl]]. split; [| split].
    + intros s y Hs [<- | Hy]; [auto |]. apply Hseen; [apply in_or_app; auto | exact Hy].
    + intros y Hy. apply Hseen; [apply in_or_app; right; left; reflexivity | exact Hy].
    + exact Hl.
Qed.

Section FixedIps.

Variable IPAddress : string -> option address.
Variable is_uuid_like : pyval -> bool.

(** One entry of the loop of [validate_fixed_ips]. *)
Lemma fixed_ips_loop_cons (ips l : list pyval) (d : dict) :
  fixed_ips_loop IPAddress is_uuid_like ips (PDict d :: l) = Ok None <->
  (contains d "ip_address" = true ->
   list_contains ips (get d "ip_address") = false /\
   validate_ip_address IPAddress (get d "ip_address") PNone = None) /\
  (contains d "subnet_id" = true -> is_uuid_like (get d "subnet_id") = true) /\
  fixed_ips_loop IPAddress is_uuid_like
    (if contains d "ip_address" then (ips ++ [get d "ip_address"])%list else ips) l
    = Ok None.
Proof.
  cbn [fixed_ips_loop].
  assert (Hsub : forall ips',
    (if msg_truthy (if contains d "subnet_id"
                    then validate_uuid is_uuid_like (get d "subnet_id") PNone else None)
     then Ok (if contains d "subnet_id"
              then validate_uuid is_uuid_like (get d "subnet_id") PNone else None)
     else fixed_ips_loop IPAddress is_uuid_like ips' l) = Ok None <->
    (contains d "subnet_id" = true -> is_uuid_like (get d "subnet_id") = true) /\
    fixed_ips_loop IPAddress is_uuid_like ips' l = Ok None).
  { intros ips'. destruct (contains d "subnet_id").
    - pose proof (validate_uuid_truthy is_uuid_like (get d "subnet_id") PNone) as Hu.
      destruct (msg_truthy (validate_uuid is_uuid_like (get d "subnet_id") PNone)) eqn:Hm.
      + split.
        * intros H. injection H as H. rewrite H in Hm. discriminate Hm.
        * intros [H _]. specialize (H eq_refl). apply Hu in H. discriminate H.
      + split; [intros H; split; [intros _; apply Hu; reflexivity | exact H] |].
        intros [_ H]. exact H.
    - simpl. split; [intros H; split; [discriminate | exact H] | intros [_ H]; exact H]. }
  destruct (contains d "ip_address").
  - destruct (list_contains ips (get d "ip_address")) eqn:Hdup.
    + simpl. split; [discriminate |]. intros [H _].
      destruct (H eq_refl) as [Hf _]. discriminate Hf.
    + pose proof (validate_ip_address_truthy IPAddress (get d "ip_address") PNone) as Hi.
      destruct (msg_truthy (validate_ip_address IPAddress (get d "ip_address") PNone))
        eqn:Hm.
      * split.
        -- intros H. injection H as H. rewrite H in Hm. discriminate Hm.
        -- intros [H _]. destruct (H eq_refl) as [_ Hv]. apply Hi in Hv. discriminate Hv.
      * rewrite Hsub. split.
        -- intros [Hs Hl]. split; [| split; assumption].
           intros _. split; [reflexivity | apply Hi; reflexivity].
        -- intros [_ [Hs Hl]]. split; assumption.
  - rewrite Hsub. split.
    + intros [Hs Hl]. split; [discriminate | split; assumption].
    + intros [_ [Hs Hl]]. split; assumption.
Qed.

Lemma fixed_ips_loop_returns (l : list pyval) : forall ips,
  exists m, fixed_ips_loop IPAddress is_uuid_like ips l = Ok m.
Proof.
  induction l as [| e l IH]; intros ips; [simpl; eauto |].
  destruct e as [| | | | | d |]; try (simpl; eauto).
  cbn [fixed_ips_loop].
  repeat match goal with
         | |- context [if ?c then _ else _] => destruct c
         end; eauto.
Qed.

Lemma fixed_ips_loop_spec (l : list pyval) : forall ips,
  fixed_ips_loop IPAddress is_uuid_like ips l = Ok None <->
  Forall (fixed_ip_ok IPAddress is_uuid_like) l /\
  (forall s y, In s ips -> In y (fixed_addresses l) -> py_eq s y = false) /\
  different (fixed_addresses l).
Proof.
  induction l as [| e l IH]; intros ips.
  - simpl. split; [intros _; repeat split; [constructor | intros s y _ []] | reflexivity].
  - destruct e as [| | | | | d |];
      try (split; [discriminate |];
           intros [H _]; inversion H as [| ? ? [d0 [Hd _]] ?]; discriminate).
    rewrite fixed_ips_loop_cons, IH. cbn [fixed_addresses].
    destruct (contains d "ip_address") eqn:Hc.
    + rewrite unseen_cons. split.
      * intros [Hip [Hsub [Hall [Hseen Hdiff]]]]. destruct (Hip eq_refl) as [Hf Hv].
        split; [| auto]. constructor; [| exact Hall].
        exists d. rewrite Hc. auto.
      * intros [Hall [Hf [Hseen Hdiff]]].
        inversion Hall as [| ? ? [d0 [Hd [Hip Hsub]]] Hall']; subst.
        injection Hd as <-. rewrite Hc in Hip. auto.
    + split.
      * intros [_ [Hsub [Hall Hrest]]]. split; [| exact Hrest].
        constructor; [| exact Hall]. exists d. rewrite Hc.
        split; [reflexivity | split; [discriminate | exact Hsub]].
      * intros [Hall Hrest].
        inversion Hall as [| ? ? [d0 [Hd [Hip Hsub]]] Hall']; subst.
        injection Hd as <-. split; [discriminate | auto].
Qed.

Lemma nameservers_loop_spec (l : list pyval) : forall hosts,
  nameservers_loop IPAddress hosts l = None <->
  Forall (fun host => validate_ip_address IPAddress host PNone = None) l /\
  (forall s y, In s hosts -> In y l -> py_eq s y = false) /\
  different l.
Proof.
  induction l as [| h l IH]; intros hosts.
  - simpl. split; [intros _; repeat split; [constructor | intros s y _ []] | reflexivity].
  - rewrite unseen_cons. cbn [nameservers_loop].
    pose proof (validate_ip_address_truthy IPAddress h PNone) as Ht.
    destruct (validate_ip_address IPAddress h PNone) as [m |] eqn:Hv.
    + destruct (msg_truthy (Some m)) eqn:Hm.
      * split; [discriminate |]. intros [H _]. inversion H. congruence.
      * destruct Ht as [Ht _]. discriminate (Ht eq_refl).
    + destruct (list_contains hosts h) eqn:Hdup.
      * split; [discriminate | intros [_ [Hf _]]; discriminate Hf].
      * rewrite IH. split.
        -- intros [Hall Hrest]. split; [constructor; assumption | auto].
        -- intros [Hall [_ Hrest]]. inversion Hall; subst. auto.
Qed.

End FixedIps.

(** X24: [validate_fixed_ips] never raises, and it passes exactly the lists of
    dicts in which every [ip_address] is accepted as an address, every
    [subnet_id] looks like a UUID, and no [ip_address] equals one of an
    earlier entry; entries may repeat a [subnet_id]. *)
Theorem validate_fixed_ips_accepts (IPAddress : string -> option address)
    (is_uuid_like : pyval -> bool) (data valid_values : pyval) :
  (exists m, validate_fixed_ips IPAddress is_uuid_like data valid_values = Ok m) /\
  (validate_fixed_ips IPAddress is_uuid_like data valid_values = Ok None <->
   exists l, data = PList l /\
     Forall (fixed_ip_ok IPAddress is_uuid_like) l /\ different (fixed_addresses l)).
Proof.
  destruct data as [| | | | l | |];
    try (split; [eexists; reflexivity |];
         split; [discriminate | intros [l0 [H _]]; discriminate]).
  unfold validate_fixed_ips. split; [apply fixed_ips_loop_returns |].
  rewrite fixed_ips_loop_spec. split.
  - intros [Hall [_ Hdiff]]. exists l. auto.
  - intros [l0 [Hl [Hall Hdiff]]]. injection Hl as <-.
    split; [exact Hall |]. split; [intros s y [] | exact Hdiff].
Qed.

(** Two entries with the same address, and two with the same subnet. *)
Example validate_fixed_ips_duplicates :
  let subnet := PStr "f3eeab00-8367-4524-b662-55e64d4cacb5" in
  validate_fixed_ips sample_IPAddress sample_is_uuid_like
      (PList [PDict [("ip_address", PStr "10.0.0.1")];
              PDict [("subnet_id", subnet); ("ip_address", PStr "10.0.0.1")]]) PNone
    = Ok (Some "Duplicate IP address '10.0.0.1'") /\
  validate_fixed_ips sample_IPAddress sample_is_uuid_like
      (PList [PDict [("subnet_id", subnet); ("ip_address", PStr "10.0.0.1")];
              PDict [("subnet_id", subnet); ("ip_address", PStr "10.0.0.2")]]) PNone
    = Ok None.
Proof. split; reflexivity. Qed.

(** X25: [validate_nameservers] passes exactly the iterable data whose every
    item is accepted as an address and differs from the items before it; a
    string is iterated by character, so an address given as one string is
    refused at its first character. *)
Theorem validate_nameservers_accepts (IPAddress : string -> option address)
    (data valid_values : pyval) :
  (validate_nameservers IPAddress data valid_values = None <->
   exists l, iterate data = Some l /\
     Forall (fun host => validate_ip_address IPAddress host PNone = None) l /\
     different l) /\
  (forall c s, data = PStr (String c s) -> c <> ":"%char ->
     validate_nameservers IPAddress data valid_values
       = Some ("'" ++ String c "" ++ "' is not a valid nameserver. '"
               ++ String c "" ++ "' is not a valid IP address")).
Proof.
  split.
  - unfold validate_nameservers. destruct (iterate data) as [l |].
    + rewrite nameservers_loop_spec. split.
      * intros [Hall [_ Hdiff]]. exists l. auto.
      * intros [l0 [Hl [Hall Hdiff]]]. injection Hl as <-.
        split; [exact Hall |]. split; [intros s y [] | exact Hdiff].
    + split; [discriminate | intros [l0 [H _]]; discriminate].
  - intros c s -> Hc. unfold validate_nameservers, iterate.
    cbn [list_ascii_of_string map nameservers_loop].
    rewrite (validate_ip_address_invalid IPAddress (PStr (String c "")) PNone).
    + reflexivity.
    + intros s0 Hs. injection Hs as <-. right. simpl.
      apply Ascii.eqb_neq in Hc. rewrite Hc. split; [reflexivity |].
      destruct (Ascii.eqb c "."); discriminate.
Qed.

Lemma validate_nameservers_accepts_witness :
  validate_nameservers sample_IPAddress (PStr "10.0.0.1") PNone
    = Some "'1' is not a valid nameserver. '1' is not a valid IP address" /\
  validate_nameservers sample_IPAddress (PList [PStr "10.0.0.1"; PStr "::1"]) PNone = None /\
  validate_nameservers sample_IPAddress (PList [PStr "::1"; PStr "::1"]) PNone
    = Some "Duplicate nameserver '::1'".
Proof.
  split; [| split; reflexivity].
  apply (proj2 (validate_nameservers_accepts sample_IPAddress (PStr "10.0.0.1") PNone)
           "1"%char "0.0.0.1" eq_refl).
  discriminate.
Defined.

(** ** Lists of UUIDs *)

(** X27: on a list of strings [validate_uuid_list] passes exactly when no
    string occurs twice and every string looks like a UUID. *)
Theorem validate_uuid_list_accepts (is_uuid_like : pyval -> bool) (ss : list string)
    (valid_values : pyval) :
  validate_uuid_list is_uuid_like (PList (map PStr ss)) valid_values = Ok None <->
  unique ss = true /\ forallb (fun s => is_uuid_like (PStr s)) ss = true.
Proof.
  unfold validate_uuid_list. rewrite list_of_items_strings, has_repeat_strings.
  destruct (unique ss); simpl.
  - rewrite first_failure_passes, forallb_forall, List.Forall_forall. split.
    + intros H. split; [reflexivity |]. intros s Hs.
      destruct (H (PStr s) (in_map PStr ss s Hs)) as [m [Hm Hf]].
      injection Hm as <-. apply (validate_uuid_truthy is_uuid_like (PStr s) valid_values).
      exact Hf.
    + intros [_ H] x Hx. apply in_map_iff in Hx as [s [<- Hs]].
      eexists. split; [reflexivity |].
      apply (validate_uuid_truthy is_uuid_like (PStr s) valid_values). apply H. exact Hs.
  - split; [discriminate | intros [H _]; discriminate H].
Qed.

(** ** Subports *)

Lemma py_eq_atom (a b : pyval) : hashable b = true -> py_eq a b = atom_eq a b.
Proof.
  destruct b as [| | | | | |]; try discriminate; intros _;
    destruct a as [| | | | l | d |]; try reflexivity;
    try (destruct l; reflexivity); destruct d; reflexivity.
Qed.

Lemma list_contains_atoms (s : list pyval) (x : pyval) :
  hashable x = true -> list_contains s x = existsb (fun item => atom_eq item x) s.
Proof.
  intros Hx. unfold list_contains. induction s as [| y s IH]; simpl; [reflexivity |].
  rewrite IH, (py_eq_atom y x Hx). reflexivity.
Qed.

Section SubportFacts.

Variable is_uuid_like : pyval -> bool.

Lemma subports_loop_cons (ids : list pyval) (segs : set_table) (d : dict) (l : list pyval) :
  subports_loop is_uuid_like ids segs (PDict d :: l) = Ok None ->
  subport_ok is_uuid_like (PDict d) /\
  list_contains ids (get d "port_id") = false /\
  exists segs', subports_loop is_uuid_like (ids ++ [get d "port_id"])%list segs' l = Ok None.
Proof.
  cbn [subports_loop].
  destruct (contains d "port_id") eqn:Hc; [| discriminate]. cbn [negb].
  pose proof (validate_uuid_truthy is_uuid_like (get d "port_id") PNone) as Hu.
  destruct (msg_truthy (validate_uuid is_uuid_like (get d "port_id") PNone));
    [discriminate |].
  destruct Hu as [Hu _]. specialize (Hu eq_refl).
  unfold set_contains at 1, set_add.
  destruct (hashable (get d "port_id")) eqn:Hh; [| discriminate]. cbn [bind].
  rewrite <- (list_contains_atoms ids _ Hh).
  destruct (list_contains ids (get d "port_id")) eqn:Hdup; [discriminate |].
  cbn [bind].
  destruct ((negb (truthy (get d "segmentation_id"))
             || negb (truthy (get d "segmentation_type")))
            && (1 <? length d)%nat) eqn:Hseg; [discriminate |].
  assert (Hok : subport_ok is_uuid_like (PDict d)).
  { exists d. repeat split; auto.
    - destruct (Nat.ltb_spec 1 (length d)) as [_ | Hle]; [| lia].
      rewrite andb_true_r in Hseg. apply orb_false_iff in Hseg as [Hs _].
      apply negb_false_iff. exact Hs.
    - destruct (Nat.ltb_spec 1 (length d)) as [_ | Hle]; [| lia].
      rewrite andb_true_r in Hseg. apply orb_false_iff in Hseg as [_ Hs].
      apply negb_false_iff. exact Hs. }
  destruct (table_get segs (get d "segmentation_type")) as [found | e]; [| discriminate].
  cbn [bind].
  destruct (match found with
            | Some s => set_contains s (get d "segmentation_id")
            | None => Ok false
            end) as [taken | e]; [| discriminate].
  cbn [bind]. destruct taken; [discriminate |].
  destruct (truthy (get d "segmentation_id")).
  - destruct (table_add segs (get d "segmentation_type") (get d "segmentation_id"))
      as [segs' | e]; [| discriminate].
    cbn [bind]. intros H. eauto.
  - intros H. eauto.
Qed.

Lemma subports_loop_spec (l : list pyval) : forall ids segs,
  subports_loop is_uuid_like ids segs l = Ok None ->
  Forall (subport_ok is_uuid_like) l /\
  (forall s y, In s ids -> In y (port_ids l) -> py_eq s y = false) /\
  different (port_ids l).
Proof.
  induction l as [| e l IH]; intros ids segs Hrun.
  - repeat split; [constructor | intros s y _ []].
  - destruct e as [| | | | | d |]; try discriminate.
    destruct (subports_loop_cons ids segs d l Hrun) as [Hok [Hdup [segs' Hrest]]].
    destruct (IH _ _ Hrest) as [Hall Hrest'].
    split; [constructor; assumption |].
    change (port_ids (PDict d :: l)) with (get d "port_id" :: port_ids l).
    apply unseen_cons. auto.
Qed.

End SubportFacts.

(** X28: every list [validate_subports] passes is a list of dicts, each with
    a [port_id] that looks like a UUID and, when it has another key, with a
    [segmentation_id] and a [segmentation_type] that are both true values
    (so a [segmentation_id] of 0 is refused), and no [port_id] equals an
    earlier one. *)
Theorem validate_subports_accepts (is_uuid_like : pyval -> bool)
    (data valid_values : pyval) :
  validate_subports is_uuid_like data valid_values = Ok None ->
  exists l, data = PList l /\
    Forall (subport_ok is_uuid_like) l /\ different (port_ids l).
Proof.
  destruct data as [| | | | l | |]; try discriminate.
  unfold validate_subports. intros H.
  destruct (subports_loop_spec is_uuid_like l [] [] H) as [Hall [_ Hdiff]].
  exists l. auto.
Qed.

Lemma validate_subports_accepts_witness :
  let u1 := PStr "f3eeab00-8367-4524-b662-55e64d4cacb5" in
  let u2 := PStr "f3eeab00-8367-4524-b662-55e64d4cacb6" in
  let data := PList [PDict [("port_id", u1)];
                     PDict [("port_id", u2); ("segmentation_id", PInt 3);
                            ("segmentation_type", PStr "vlan")]] in
  validate_subports sample_is_uuid_like data PNone = Ok None /\
  exists l, data = PList l /\
    Forall (subport_ok sample_is_uuid_like) l /\ different (port_ids l).
Proof.
  intros u1 u2 data. split; [reflexivity |].
  apply (validate_subports_accepts sample_is_uuid_like data PNone). reflexivity.
Defined.

(** A segmentation id taken under the same type, an id of 0, and
    segmentation values without a hash. *)
Example validate_subports_segmentation :
  let u1 := PStr "f3eeab00-8367-4524-b662-55e64d4cacb5" in
  let u2 := PStr "f3eeab00-8367-4524-b662-55e64d4cacb6" in
  validate_subports sample_is_uuid_like
      (PList [PDict [("port_id", u1); ("segmentation_id", PInt 3);
                     ("segmentation_type", PStr "vlan")];
              PDict [("port_id", u2); ("segmentation_id", PInt 3);
                     ("segmentation_type", PStr "vlan")]]) PNone
    = Ok (Some ("Segmentation ID '3' for 'f3eeab00-8367-4524-b662-55e64d4cacb6' "
                ++ "is not unique")) /\
  validate_subports sample_is_uuid_like
      (PList [PDict [("port_id", u1); ("segmentation_id", PInt 3);
                     ("segmentation_type", PStr "vlan")];
              PDict [("port_id", u2); ("segmentation_id", PInt 3);
                     ("segmentation_type", PStr "vxlan")]]) PNone = Ok None /\
  validate_subports sample_is_uuid_like
      (PList [PDict [("port_id", u1); ("segmentation_id", PInt 1);
                     ("segmentation_type", PList [PStr "vlan"])]]) PNone
    = Raise TypeError.
Proof. repeat split. Qed.

(** ** An address or a subnet *)

(** X22: [validate_ip_or_subnet_or_none] passes exactly [None] and the data
    that [validate_ip_address] or [validate_subnet] passes; what it refuses
    gets one message, whatever the two said. *)
Theorem validate_ip_or_subnet_or_none_accepts (IPAddress : string -> option address)
    (IPNetwork : string -> option network) (data valid_values : pyval) :
  (validate_ip_or_subnet_or_none IPAddress IPNetwork data valid_values = None <->
   data = PNone \/
   validate_ip_address IPAddress data PNone = None \/
   validate_subnet IPNetwork data PNone = None) /\
  (validate_ip_or_subnet_or_none IPAddress IPNetwork data valid_values <> None ->
   validate_ip_or_subnet_or_none IPAddress IPNetwork data valid_values
     = Some ("'" ++ py_str data ++ "' is neither a valid IP address, nor "
             ++ "is it a valid IP subnet")).
Proof.
  unfold validate_ip_or_subnet_or_none, validate_ip_address_or_none,
    validate_subnet_or_none.
  destruct data as [| b | z | s | l | d | f];
    try (split; [split; [auto | reflexivity] | intros H; destruct (H eq_refl)]);
    destruct (validate_ip_address IPAddress _ PNone) as [mi |] eqn:Hi;
    destruct (validate_subnet IPNetwork _ PNone) as [ms |] eqn:Hs;
    (split;
     [ split; [try discriminate; auto | try reflexivity;
               intros [H | [H | H]]; discriminate H]
     | try reflexivity; intros H; destruct (H eq_refl) ]).
Qed.

Lemma validate_ip_or_subnet_or_none_accepts_witness :
  validate_ip_or_subnet_or_none sample_IPAddress sample_IPNetwork (PStr "10.0.0.0") PNone
    <> None /\
  validate_ip_or_subnet_or_none sample_IPAddress sample_IPNetwork (PStr "10.0.0.0") PNone
    = Some "'10.0.0.0' is neither a valid IP address, nor is it a valid IP subnet".
Proof.
  assert (H : validate_ip_or_subnet_or_none sample_IPAddress sample_IPNetwork
                (PStr "10.0.0.0") PNone <> None) by discriminate.
  split; [exact H |].
  apply (proj2 (validate_ip_or_subnet_or_none_accepts sample_IPAddress sample_IPNetwork
                  (PStr "10.0.0.0") PNone) H).
Defined.
